(** * FrameStorage: a localStorage channel between a page and a frame

    A shallow embedding of frame-storage.js and of the properties its
    description states about it.

    The client half ([FS.FrameStorage], the handle it returns, and
    [FS.handleMessageEvent]) runs in the embedding page; the server half
    ([Server.initChannel]) runs inside the frame and answers from
    [localStorage].

    What belongs to the platform and not to the library is modelled as
    follows.
    - A JavaScript value is one of the primitive values [undefined],
      [null], a boolean, a number or a string ([Js.jsval]): the types an
      envelope is meant to carry are [null], strings and numbers. A number
      is [NaN], an infinity or a decimal, printed as [Number::toString]
      prints it. Objects are not modelled.
    - What a caller gives as [cb] is absent or falsy, a function, or
      another truthy value ([Dom.handler]). A function of the client is
      known by its identity; a call of it is recorded in the trace
      ([CallHandler]) and returns or throws as the page's [client] says,
      which may depend on everything that happened before. What the
      function does besides is client code; a call of the handle it makes
      is an input of the page like any other, as if made once the
      listener is left.
    - The text carried by a message event is represented by what
      [JSON.parse] makes of it ([Wire.wire]): a text it rejects, the text
      [null], or any other JSON value seen through the five properties the
      library reads.  [JSON.stringify] of an envelope writes what reads
      back as [Wire.read_back] of it.
    - [postMessage] is recorded in the trace and returns. Whether the
      message reaches the window it is posted to is the browser's
      decision, taken on [targetOrigin] ([System.delivers]).
    - [Math.random] is an oracle: the n-th draw is given as the hexadecimal
      digits that [toString(16)] prints for it.
    - The frame is inserted by the branch of [insertIframe] for browsers
      without [document.attachEvent]. *)

From Stdlib Require Import ZArith NArith Ascii.
From stdpp Require Import base option list strings gmap pretty.

#[local] Open Scope string_scope.
#[local] Open Scope list_scope.

(** ** JavaScript values *)

Module Js.

(** A number: [NaN], an infinity, or a finite number.  A finite number is
    given as the decimal [digits * 10 ^ exponent] with its sign, zero being
    the decimal with the digits [0]; every double is denoted by the digits
    and the exponent that [Number::toString] finds for it, the shortest
    decimal that reads back as that double.  The decimals that no double
    is printed as are carried along: what is shown of every decimal holds
    of every number. *)
Inductive number : Type :=
| NaN
| Infinity (negative : bool)
| Decimal (negative : bool) (digits : N) (exponent : Z).

#[global] Instance number_eq_dec : EqDecision number.
Proof. solve_decision. Defined.

(** The values of the types an envelope is meant to carry, [null], strings
    and numbers, with the other primitive values; objects are not among
    them. *)
Inductive jsval : Type :=
| VUndef
| VNull
| VBool (b : bool)
| VNum (n : number)
| VStr (s : string).

#[global] Instance jsval_eq_dec : EqDecision jsval.
Proof. solve_decision. Defined.

(** The number a natural number is. *)
Definition of_nat (n : nat) : number := Decimal false (N.of_nat n) 0.

(** The digits of a decimal without the zeros at their end, given last
    digit first, and how many zeros there were. *)
Fixpoint significant (reversed : list ascii) : list ascii * nat :=
  match reversed with
  | "0"%char :: rest => let '(s, zeros) := significant rest in (s, S zeros)
  | _ => (reverse reversed, 0)
  end.

(** [Number::toString(x)] in radix 10: with [k] significant digits [s] and
    [x = s * 10 ^ (n - k)], the digits in full when [k <= n <= 21], with a
    point inside when [0 < n <= 21], after [0.] and zeros when
    [-6 < n <= 0], and else with an exponent. *)
Definition Number_toString (x : number) : string :=
  match x with
  | NaN => "NaN"
  | Infinity negative => if negative then "-Infinity" else "Infinity"
  | Decimal negative digits exponent =>
      if (digits =? 0)%N then "0" else
      let '(s, zeros) :=
        significant (reverse (String.list_ascii_of_string (pretty digits))) in
      let k := Z.of_nat (List.length s) in
      let n := (k + Z.of_nat zeros + exponent)%Z in
      let text :=
        if ((k <=? n) && (n <=? 21))%Z then
          s ++ replicate (Z.to_nat (n - k)) "0"%char
        else if ((0 <? n) && (n <=? 21))%Z then
          take (Z.to_nat n) s ++ "."%char :: drop (Z.to_nat n) s
        else if ((-6 <? n) && (n <=? 0))%Z then
          "0"%char :: "."%char :: replicate (Z.to_nat (- n)) "0"%char ++ s
        else
          match s with
          | [] => []
          | first :: rest =>
              first :: match rest with [] => [] | _ => "."%char :: rest end
          end
          ++ "e"%char :: (if (0 <=? n - 1)%Z then "+"%char else "-"%char)
          :: String.list_ascii_of_string (pretty (Z.abs_N (n - 1)))
      in
      String.string_of_list_ascii
        ((if negative then ["-"%char] else []) ++ text)
  end.

(** [ToString], which is also [ToPropertyKey] on these values. *)
Definition ToString (v : jsval) : string :=
  match v with
  | VUndef => "undefined"
  | VNull => "null"
  | VBool true => "true"
  | VBool false => "false"
  | VNum n => Number_toString n
  | VStr s => s
  end.

(** [x === y] on numbers: [NaN] equals nothing, the two zeros are equal,
    and two decimals are equal when they denote the same number. *)
Definition Number_equal (x y : number) : bool :=
  match x, y with
  | Infinity a, Infinity b => bool_decide (a = b)
  | Decimal a d e, Decimal b d' e' =>
      let low := Z.min e e' in
      let scaled := (Z.of_N d * 10 ^ (e - low))%Z in
      let scaled' := (Z.of_N d' * 10 ^ (e' - low))%Z in
      (scaled =? scaled')%Z && ((scaled =? 0)%Z || bool_decide (a = b))
  | _, _ => false
  end.

(** [a === b]. *)
Definition strict_eq (a b : jsval) : bool :=
  match a, b with
  | VNum x, VNum y => Number_equal x y
  | _, _ => bool_decide (a = b)
  end.

(** What reading back the JSON text of a value gives, the value being a
    property of an object: [JSON.stringify] writes [null] for [NaN] and the
    infinities and [0] for the negative zero, and leaves out a property
    that is [undefined], which reads back as [undefined]. *)
Definition jsonify (v : jsval) : jsval :=
  match v with
  | VNum NaN | VNum (Infinity _) => VNull
  | VNum (Decimal negative digits exponent) =>
      VNum (Decimal (negative && negb (digits =? 0)%N) digits exponent)
  | _ => v
  end.

(** A thrown value, with the [message] property a [catch] reads. *)
Record exn : Type := Exn { exn_name : string; exn_message : jsval }.

#[global] Instance exn_eq_dec : EqDecision exn.
Proof. solve_decision. Defined.

Definition SyntaxError : exn := Exn "SyntaxError" (VStr "Unexpected token").
Definition TypeError (what : string) : exn := Exn "TypeError" (VStr what).
Definition NotFoundError : exn :=
  Exn "NotFoundError"
      (VStr "The node to be removed is not a child of this node.").

(** The own property names of [Object.prototype], which every lookup in a
    plain object falls back to. *)
Definition Object_prototype_names : list string :=
  [ "constructor"; "__defineGetter__"; "__defineSetter__"; "hasOwnProperty";
    "__lookupGetter__"; "__lookupSetter__"; "isPrototypeOf";
    "propertyIsEnumerable"; "toString"; "valueOf"; "__proto__";
    "toLocaleString" ].

Definition inherited (name : string) : bool :=
  bool_decide (name ∈ Object_prototype_names).

(** Calling the inherited member as a plain function, [this] being
    [undefined], with primitive arguments: [Object], [toString] and
    [isPrototypeOf] return, the others raise a [TypeError] ([__proto__] is
    an object, not a function), whose message is the engine's. *)
Definition inherited_call_returns (name : string) : bool :=
  bool_decide (name ∈ ["constructor"; "toString"; "isPrototypeOf"]).

(** *** State and exceptions *)

Inductive completion (A : Type) : Type :=
| Normal (a : A)
| Throw (e : exn).
Arguments Normal {A} a.
Arguments Throw {A} e.

Definition js (S A : Type) : Type := S → completion A * S.

Definition ret {S A} (a : A) : js S A := λ s, (Normal a, s).

Definition bind {S A B} (c : js S A) (k : A → js S B) : js S B :=
  λ s, match c s with
       | (Normal a, s') => k a s'
       | (Throw e, s') => (Throw e, s')
       end.

Definition throw {S A} (e : exn) : js S A := λ s, (Throw e, s).

Definition try_catch {S A} (c : js S A) (h : exn → js S A) : js S A :=
  λ s, match c s with
       | (Normal a, s') => (Normal a, s')
       | (Throw e, s') => h e s'
       end.

Definition get {S} : js S S := λ s, (Normal s, s).
Definition modify {S} (f : S → S) : js S unit := λ s, (Normal tt, f s).

(** The state a computation leaves, whether it returned or threw. *)
Definition exec {S A} (c : js S A) (s : S) : S := snd (c s).

End Js.
Export Js.

Notation "'let!' x ':=' c 'in' k" := (Js.bind c (λ x, k))
  (at level 10, x name, c at level 100, k at level 200).
Notation "c ';;;' k" := (Js.bind c (λ _, k))
  (at level 100, k at level 200, right associativity).

(** ** Envelopes and the wire *)

Module Msg.

(** The five properties of an envelope; [VUndef] is an absent property. *)
Record t : Type := mk {
  action : jsval;
  ref : jsval;
  key : jsval;
  value : jsval;
  message : jsval
}.

#[global] Instance eq_dec : EqDecision t.
Proof. solve_decision. Defined.

End Msg.

Module Wire.

Inductive wire : Type :=
| Garbage (text : string)      (* [JSON.parse] raises a SyntaxError *)
| JsonNull                     (* the text [null] *)
| Json (m : Msg.t).            (* any other JSON value *)

#[global] Instance wire_eq_dec : EqDecision wire.
Proof. solve_decision. Defined.

(** The envelope that is read back from the text of [m]. *)
Definition read_back (m : Msg.t) : Msg.t :=
  Msg.mk (jsonify (Msg.action m)) (jsonify (Msg.ref m)) (jsonify (Msg.key m))
         (jsonify (Msg.value m)) (jsonify (Msg.message m)).

Definition JSON_stringify (m : Msg.t) : wire := Json (read_back m).

(** [JSON.parse(data)], then the first property read of the result. *)
Definition JSON_parse {S} (data : wire) : js S Msg.t :=
  match data with
  | Garbage _ => throw SyntaxError
  | JsonNull => throw (TypeError "Cannot read properties of null")
  | Json m => ret m
  end.

End Wire.
Export Wire.

(** ** The page: what the client half reads and writes *)

Module Dom.

Definition window : Type := nat.     (* a Window object, by identity *)
Definition function : Type := nat.   (* a function of the client, by identity *)

(** What the caller gave as [cb] when it is truthy: a function, or a value
    of another kind.  A [cb] that is left out or falsy is [None]. *)
Inductive handler : Type :=
| Callable (f : function)
| Uncallable.

#[global] Instance handler_eq_dec : EqDecision handler.
Proof. solve_decision. Defined.

(** What the browser knows of the windows and of addresses: the origin of
    the document in each window, serialised, and the serialised origin of
    the URL a string parses as, when it does. *)
Record browser : Type := Browser {
  document_origin : window → string;
  url_origin : string → option string
}.

Record MessageEvent : Type := Event {
  origin : string;
  source : window;
  data : wire
}.

Inductive effect : Type :=
| PostMessage (target : window) (payload : wire) (targetOrigin : string)
| CallHandler (cb : function) (err val : jsval)
| ConsoleWarn (text : string)
| ConsoleError (text : string).

#[global] Instance effect_eq_dec : EqDecision effect.
Proof. solve_decision. Defined.

(** What [FrameStorage._callbacks] holds: completion handlers of pending
    calls, and the function [insertIframe] stores for the frame's load. *)
Inductive callback : Type :=
| Completion (h : handler)
| IframeOnload.

#[global] Instance callback_eq_dec : EqDecision callback.
Proof. solve_decision. Defined.

(** An entry of the buffer, [[name, arguments]]. *)
Inductive call : Type :=
| Load (key : jsval) (cb : option handler)
| Save (key value : jsval) (cb : option handler)
| Empty (cb : option handler)
| Count (cb : option handler)
| Key (value : jsval) (cb : option handler).

(** [f.bind(null, targetWindow, channelOrigin)]. *)
Definition bound : Type := (window * string)%type.

(** The variables the closures of one [FrameStorage(channelUrl)] share. *)
Record channel : Type := Channel {
  root : option string;
  buffer : list call;
  targetWindow : option window;
  boundMessageEventHandler : option window;
  boundSave : option bound;
  boundLoad : option bound;
  boundEmpty : option bound;
  boundCount : option bound;
  boundKey : option bound;
  channelOrigin : string;
  contentWindow : window;            (* of the frame under [root] *)
  srcSet : bool;
  onloadDone : bool
}.

Record page : Type := Page {
  callbacks : gmap string callback;  (* FrameStorage._callbacks *)
  Math_random : nat → N * list N;    (* the draws, as hexadecimal digits *)
  client : function → jsval → jsval → list effect → option exn;
                                     (* what a function of the client throws
                                        when called with two arguments, the
                                        trace being what it is *)
  draws : nat;                       (* how many were taken *)
  body : list string;                (* children of document.body, by id *)
  listeners : list window;           (* message listeners of the page: each
                                        is handleMessageEvent bound to a
                                        frame window *)
  trace : list effect;
  chan : channel
}.

Definition with_callbacks (f : gmap string callback → gmap string callback)
    (p : page) : page :=
  Page (f (callbacks p)) (Math_random p) (client p) (draws p) (body p)
       (listeners p) (trace p) (chan p).
Definition with_draws (f : nat → nat) (p : page) : page :=
  Page (callbacks p) (Math_random p) (client p) (f (draws p)) (body p)
       (listeners p) (trace p) (chan p).
Definition with_body (f : list string → list string) (p : page) : page :=
  Page (callbacks p) (Math_random p) (client p) (draws p) (f (body p))
       (listeners p) (trace p) (chan p).
Definition with_listeners (f : list window → list window) (p : page) : page :=
  Page (callbacks p) (Math_random p) (client p) (draws p) (body p)
       (f (listeners p)) (trace p) (chan p).
Definition with_trace (f : list effect → list effect) (p : page) : page :=
  Page (callbacks p) (Math_random p) (client p) (draws p) (body p)
       (listeners p) (f (trace p)) (chan p).
Definition with_chan (f : channel → channel) (p : page) : page :=
  Page (callbacks p) (Math_random p) (client p) (draws p) (body p)
       (listeners p) (trace p) (f (chan p)).

Definition set_root (v : option string) (c : channel) : channel :=
  Channel v (buffer c) (targetWindow c) (boundMessageEventHandler c)
          (boundSave c) (boundLoad c) (boundEmpty c) (boundCount c)
          (boundKey c) (channelOrigin c) (contentWindow c) (srcSet c)
          (onloadDone c).
Definition set_buffer (v : list call) (c : channel) : channel :=
  Channel (root c) v (targetWindow c) (boundMessageEventHandler c)
          (boundSave c) (boundLoad c) (boundEmpty c) (boundCount c)
          (boundKey c) (channelOrigin c) (contentWindow c) (srcSet c)
          (onloadDone c).
Definition set_targetWindow (v : option window) (c : channel) : channel :=
  Channel (root c) (buffer c) v (boundMessageEventHandler c)
          (boundSave c) (boundLoad c) (boundEmpty c) (boundCount c)
          (boundKey c) (channelOrigin c) (contentWindow c) (srcSet c)
          (onloadDone c).
Definition set_boundMessageEventHandler (v : option window) (c : channel)
    : channel :=
  Channel (root c) (buffer c) (targetWindow c) v
          (boundSave c) (boundLoad c) (boundEmpty c) (boundCount c)
          (boundKey c) (channelOrigin c) (contentWindow c) (srcSet c)
          (onloadDone c).
Definition set_boundSave (v : option bound) (c : channel) : channel :=
  Channel (root c) (buffer c) (targetWindow c) (boundMessageEventHandler c)
          v (boundLoad c) (boundEmpty c) (boundCount c)
          (boundKey c) (channelOrigin c) (contentWindow c) (srcSet c)
          (onloadDone c).
Definition set_boundLoad (v : option bound) (c : channel) : channel :=
  Channel (root c) (buffer c) (targetWindow c) (boundMessageEventHandler c)
          (boundSave c) v (boundEmpty c) (boundCount c)
          (boundKey c) (channelOrigin c) (contentWindow c) (srcSet c)
          (onloadDone c).
Definition set_boundEmpty (v : option bound) (c : channel) : channel :=
  Channel (root c) (buffer c) (targetWindow c) (boundMessageEventHandler c)
          (boundSave c) (boundLoad c) v (boundCount c)
          (boundKey c) (channelOrigin c) (contentWindow c) (srcSet c)
          (onloadDone c).
Definition set_boundCount (v : option bound) (c : channel) : channel :=
  Channel (root c) (buffer c) (targetWindow c) (boundMessageEventHandler c)
          (boundSave c) (boundLoad c) (boundEmpty c) v
          (boundKey c) (channelOrigin c) (contentWindow c) (srcSet c)
          (onloadDone c).
Definition set_boundKey (v : option bound) (c : channel) : channel :=
  Channel (root c) (buffer c) (targetWindow c) (boundMessageEventHandler c)
          (boundSave c) (boundLoad c) (boundEmpty c) (boundCount c)
          v (channelOrigin c) (contentWindow c) (srcSet c)
          (onloadDone c).
Definition set_srcSet (v : bool) (c : channel) : channel :=
  Channel (root c) (buffer c) (targetWindow c) (boundMessageEventHandler c)
          (boundSave c) (boundLoad c) (boundEmpty c) (boundCount c)
          (boundKey c) (channelOrigin c) (contentWindow c) v
          (onloadDone c).
Definition set_onloadDone (v : bool) (c : channel) : channel :=
  Channel (root c) (buffer c) (targetWindow c) (boundMessageEventHandler c)
          (boundSave c) (boundLoad c) (boundEmpty c) (boundCount c)
          (boundKey c) (channelOrigin c) (contentWindow c) (srcSet c)
          v.

(** Removes the first occurrence, as [removeChild] and
    [removeEventListener] remove one node or one listener. *)
Fixpoint remove_first {A} `{EqDecision A} (x : A) (l : list A) : list A :=
  match l with
  | [] => []
  | y :: l' => if decide (x = y) then l' else y :: remove_first x l'
  end.

Definition log (e : effect) : js page unit :=
  modify (with_trace (λ t, t ++ [e])).

Definition console_warn (text : string) : js page unit :=
  log (ConsoleWarn text).
Definition console_error (text : string) : js page unit :=
  log (ConsoleError text).

Definition postMessage (target : window) (payload : wire)
    (targetOrigin : string) : js page unit :=
  log (PostMessage target payload targetOrigin).

Definition appendChild (id : string) : js page unit :=
  modify (with_body (λ b, b ++ [id])).

(** [document.body.removeChild(node)] raises NotFoundError when the node is
    not a child of the body. *)
Definition removeChild (id : string) : js page unit :=
  let! p := get in
  if bool_decide (id ∈ body p)
  then modify (with_body (remove_first id))
  else throw NotFoundError.

Definition addEventListener (l : window) : js page unit :=
  modify (with_listeners (λ ls, ls ++ [l])).

(** [window.removeEventListener('message', l, false)]; nothing happens when
    [l] is [null] or is not attached. *)
Definition removeEventListener (l : option window) : js page unit :=
  match l with
  | Some w => modify (with_listeners (remove_first w))
  | None => ret tt
  end.

Fixpoint forEach {S A} (l : list A) (f : A → js S unit) : js S unit :=
  match l with
  | [] => ret tt
  | x :: l' => f x ;;; forEach l' f
  end.

End Dom.
Export Dom.

(** ** The regular expression of the constructor *)

Module Re.

Definition code (c : ascii) : N := N_of_ascii c.

(** ASCII letters compare without case under the [i] flag; no other
    character is folded onto an ASCII one. *)
Definition fold_case (c : ascii) : ascii :=
  if ((65 <=? code c) && (code c <=? 90))%N
  then ascii_of_N (code c + 32)
  else c.

Definition eq_ci (a b : ascii) : bool :=
  bool_decide (fold_case a = fold_case b).

(** The class [[a-z0-9-.:@]] under the [i] flag. *)
Definition host_char (c : ascii) : bool :=
  let n := code (fold_case c) in
  ((97 <=? n) && (n <=? 122))%N || ((48 <=? n) && (n <=? 57))%N
  || bool_decide (c = "-"%char) || bool_decide (c = "."%char)
  || bool_decide (c = ":"%char) || bool_decide (c = "@"%char).

(** Matches the literal [lit] at the head of [s] without regard to case:
    the text matched and what follows it. *)
Fixpoint literal (lit s : string) : option (string * string) :=
  match lit with
  | EmptyString => Some (EmptyString, s)
  | String a lit' =>
      match s with
      | String b s' =>
          if eq_ci a b
          then match literal lit' s' with
               | Some (m, r) => Some (String b m, r)
               | None => None
               end
          else None
      | EmptyString => None
      end
  end.

(** The longest head of [s] made of characters of the class. *)
Fixpoint many (f : ascii → bool) (s : string) : string * string :=
  match s with
  | String c s' =>
      if f c then let '(m, r) := many f s' in (String c m, r)
      else (EmptyString, s)
  | EmptyString => (EmptyString, EmptyString)
  end.

(** [:\/\/[a-z0-9-.:@]+] at the head of [s]; the optional [\/] that follows
    always matches and is outside the group. *)
Definition authority (s : string) : option string :=
  match literal "://" s with
  | Some (sep, r) =>
      match many host_char r with
      | (EmptyString, _) => None
      | (h, _) => Some (sep +:+ h)
      end
  | None => None
  end.

(** Group 1 of [/^(https?:\/\/[a-z0-9-.:@]+)\/?/i] on [s], when it
    matches: [s?] first takes the [s], and gives it back if the rest then
    fails. *)
Definition group1 (s : string) : option string :=
  match literal "http" s with
  | Some (http, r) =>
      let without_s := (λ a, http +:+ a) <$> authority r in
      match literal "s" r with
      | Some (s1, r') =>
          match authority r' with
          | Some a => Some (http +:+ s1 +:+ a)
          | None => without_s
          end
      | None => without_s
      end
  | None => None
  end.

End Re.

(** ** frame-storage.js *)

Module FS.

Definition hex_char (d : N) : ascii :=
  match (d mod 16)%N with
  | 0 => "0" | 1 => "1" | 2 => "2" | 3 => "3" | 4 => "4" | 5 => "5"
  | 6 => "6" | 7 => "7" | 8 => "8" | 9 => "9" | 10 => "a" | 11 => "b"
  | 12 => "c" | 13 => "d" | 14 => "e" | _ => "f"
  end%N%char.

Definition hex_string (ds : list N) : string :=
  foldr (λ d s, String (hex_char d) s) EmptyString ds.

(** ['c' + (Math.random() * (1 << 30)).toString(16).replace('.', '')]: the
    draw is printed with at least one digit. *)
Definition guid (digits : N * list N) : string :=
  String "c" (hex_string (digits.1 :: digits.2)).

Definition makeGuid : js page string :=
  let! p := get in
  modify (with_draws S) ;;;
  ret (guid (Math_random p (draws p))).

Definition sendMessage (targetWindow : window) (message : Msg.t)
    (origin : string) : js page unit :=
  postMessage targetWindow (JSON_stringify message) origin.

(** [if (cb) { FrameStorage._callbacks[ref] = cb; }] *)
Definition register (ref : string) (cb : option handler) : js page bool :=
  match cb with
  | Some h => modify (with_callbacks (insert ref (Completion h))) ;;; ret true
  | None => ret false
  end.

Definition save (targetWindow : window) (origin : string) (key value : jsval)
    (cb : option handler) : js page unit :=
  let! ref := makeGuid in
  register ref cb ;;;
  sendMessage targetWindow
    (Msg.mk (VStr "setItem") (VStr ref) key value VUndef) origin.

Definition load (targetWindow : window) (origin : string) (key : jsval)
    (cb : option handler) : js page unit :=
  let! ref := makeGuid in
  let! registered := register ref cb in
  (if registered then ret tt
   else console_warn "FrameStorage.getItem: Missing callback function") ;;;
  sendMessage targetWindow
    (Msg.mk (VStr "getItem") (VStr ref) key VUndef VUndef) origin.

Definition empty (targetWindow : window) (origin : string)
    (cb : option handler) : js page unit :=
  let! ref := makeGuid in
  let! registered := register ref cb in
  (if registered then ret tt
   else console_warn "FrameStorage.clear: Missing callback function") ;;;
  sendMessage targetWindow
    (Msg.mk (VStr "clear") (VStr ref) VUndef VUndef VUndef) origin.

Definition count (targetWindow : window) (origin : string)
    (cb : option handler) : js page unit :=
  let! ref := makeGuid in
  let! registered := register ref cb in
  (if registered then ret tt
   else console_warn "FrameStorage.length: Missing callback function") ;;;
  sendMessage targetWindow
    (Msg.mk (VStr "length") (VStr ref) VUndef VUndef VUndef) origin.

Definition key (targetWindow : window) (origin : string) (value : jsval)
    (cb : option handler) : js page unit :=
  let! ref := makeGuid in
  register ref cb ;;;
  sendMessage targetWindow
    (Msg.mk (VStr "key") (VStr ref) VUndef value VUndef) origin.

(** [bound.apply(null, args)]; applying [undefined] or [null] raises. *)
Definition apply (b : option bound) (f : window → string → js page unit)
    : js page unit :=
  match b with
  | Some (w, o) => f w o
  | None => throw (TypeError "Cannot read properties of undefined")
  end.

(** The body of [buffer.forEach]: the [switch] on [item[0]]. *)
Definition replay (item : call) : js page unit :=
  let! p := get in
  match item with
  | Save k v cb => apply (boundSave (chan p)) (λ w o, save w o k v cb)
  | Load k cb => apply (boundLoad (chan p)) (λ w o, load w o k cb)
  | Empty cb => apply (boundEmpty (chan p)) (λ w o, empty w o cb)
  | Count cb => apply (boundCount (chan p)) (λ w o, count w o cb)
  | Key v cb => apply (boundKey (chan p)) (λ w o, key w o v cb)
  end.

(** The [onload] option the constructor passes to [insertIframe]. *)
Definition onload : js page unit :=
  let! p := get in
  let w := contentWindow (chan p) in
  let o := channelOrigin (chan p) in
  modify (with_chan (set_targetWindow (Some w))) ;;;
  modify (with_chan (set_boundMessageEventHandler (Some w))) ;;;
  modify (with_chan (set_boundSave (Some (w, o)))) ;;;
  modify (with_chan (set_boundLoad (Some (w, o)))) ;;;
  modify (with_chan (set_boundEmpty (Some (w, o)))) ;;;
  modify (with_chan (set_boundCount (Some (w, o)))) ;;;
  modify (with_chan (set_boundKey (Some (w, o)))) ;;;
  addEventListener w ;;;
  let! p := get in
  forEach (buffer (chan p)) replay ;;;
  modify (with_chan (set_buffer [])).

(** The function [insertIframe] stores under its guid and sets as the
    frame's [onload]. *)
Definition iframe_onload : js page unit :=
  let! p := get in
  if srcSet (chan p) && negb (onloadDone (chan p))
  then modify (with_chan (set_onloadDone true)) ;;; onload
  else ret tt.

Definition insertIframe : js page unit :=
  let! id := makeGuid in
  let! name := makeGuid in
  let! guid := makeGuid in
  modify (with_chan (set_srcSet false)) ;;;
  modify (with_chan (set_onloadDone false)) ;;;
  modify (with_callbacks (insert guid IframeOnload)) ;;;
  (* the frame node is created and appended to the root *)
  modify (with_chan (set_srcSet true)).

(** [FrameStorage._callbacks[message.ref] || function () {}] *)
Inductive callee : Type :=
| Registered (cb : callback)
| Inherited (name : string)
| Nothing.

Definition lookup_callback (registry : gmap string callback) (ref : string)
    : callee :=
  match registry !! ref with
  | Some cb => Registered cb
  | None => if inherited ref then Inherited ref else Nothing
  end.

(** [h(err, val)] for what a caller gave as [cb]: its function runs, and
    returns or throws; a value that is not a function cannot be called. *)
Definition call (h : handler) (err val : jsval) : js page unit :=
  match h with
  | Callable f =>
      let! p := get in
      log (CallHandler f err val) ;;;
      match client p f err val (trace p) with
      | Some e => throw e
      | None => ret tt
      end
  | Uncallable => throw (TypeError "callback is not a function")
  end.

Definition invoke (f : callee) (err val : jsval) : js page unit :=
  match f with
  | Registered (Completion h) => call h err val
  | Registered IframeOnload => iframe_onload
  | Inherited name =>
      if inherited_call_returns name then ret tt
      else throw (TypeError "callback is not a function")
  | Nothing => ret tt
  end.

Definition handleMessageEvent (targetWindow : window) (event : MessageEvent)
    : js page unit :=
  if bool_decide (source event = targetWindow) then
    let! message := JSON_parse (data event) in
    let! p := get in
    let ref := ToString (Msg.ref message) in
    let callback := lookup_callback (callbacks p) ref in
    (if strict_eq (Msg.action message) (VStr "frameStorageSuccess")
     then invoke callback VNull (Msg.value message)
     else if strict_eq (Msg.action message) (VStr "frameStorageError")
     then invoke callback (Msg.message message) VNull
     else console_error "Unknown action") ;;;
    modify (with_callbacks (delete ref))
  else ret tt.

(** [FrameStorage(channelUrl)] in a page at [location], the browser giving
    the inserted frame the window [frame]. *)
Definition FrameStorage (location_protocol location_host : string)
    (channelUrl : string) (frame : window) : js page unit :=
  let! guid := makeGuid in
  let root := "framestorage-" +:+ guid in
  appendChild root ;;;
  let origin := location_protocol +:+ "//" +:+ location_host in
  let channelOrigin := default origin (Re.group1 channelUrl) in
  modify (with_chan (λ _,
    Channel (Some root) [] None None None None None None None
            channelOrigin frame false false)) ;;;
  insertIframe.

End FS.

(** The object [FrameStorage] returns. *)
Module Handle.

Definition getItem (key : jsval) (cb : option handler) : js page unit :=
  let! p := get in
  match boundLoad (chan p) with
  | Some (w, o) => FS.load w o key cb
  | None => modify (with_chan (λ c, set_buffer (buffer c ++ [Load key cb]) c))
  end.

Definition setItem (key value : jsval) (cb : option handler) : js page unit :=
  let! p := get in
  match boundSave (chan p) with
  | Some (w, o) => FS.save w o key value cb
  | None =>
      modify (with_chan (λ c, set_buffer (buffer c ++ [Save key value cb]) c))
  end.

Definition clear (cb : option handler) : js page unit :=
  let! p := get in
  match boundEmpty (chan p) with
  | Some (w, o) => FS.empty w o cb
  | None => modify (with_chan (λ c, set_buffer (buffer c ++ [Empty cb]) c))
  end.

Definition length (cb : option handler) : js page unit :=
  let! p := get in
  match boundCount (chan p) with
  | Some (w, o) => FS.count w o cb
  | None => modify (with_chan (λ c, set_buffer (buffer c ++ [Count cb]) c))
  end.

Definition key (value : jsval) (cb : option handler) : js page unit :=
  let! p := get in
  match boundKey (chan p) with
  | Some (w, o) => FS.key w o value cb
  | None => modify (with_chan (λ c, set_buffer (buffer c ++ [Key value cb]) c))
  end.

Definition destroy : js page unit :=
  let! p := get in
  match root (chan p) with
  | Some r => removeChild r ;;; modify (with_chan (set_root None))
  | None => ret tt
  end ;;;
  let! p := get in
  match targetWindow (chan p) with
  | Some _ =>
      removeEventListener (boundMessageEventHandler (chan p)) ;;;
      modify (with_chan (set_targetWindow None))
  | None => ret tt
  end ;;;
  modify (with_chan (set_boundMessageEventHandler None)) ;;;
  modify (with_chan (set_boundSave None)) ;;;
  modify (with_chan (set_boundLoad None)).

(** A call of one of the five operations, by the buffer entry it would
    make. *)
Definition invoke (c : call) : js page unit :=
  match c with
  | Load k cb => getItem k cb
  | Save k v cb => setItem k v cb
  | Empty cb => clear cb
  | Count cb => length cb
  | Key v cb => key v cb
  end.

End Handle.

(** ** The storage behind the frame *)

Module Storage.

(** The members of [localStorage] the dispatcher uses. Each may raise. *)
Class Backend (S : Type) : Type := {
  getItem : jsval → js S jsval;
  setItem : jsval → jsval → js S unit;
  removeItem : jsval → js S unit;
  clear : js S unit;
  length : js S jsval;
  key : jsval → js S jsval
}.

(** A Web Storage area: the entries in the order [key(n)] counts them, the
    room it has (in characters of keys and values), and whether the page
    may use it at all. *)
Record area : Type := Area {
  items : list (string * string);
  quota : nat;
  blocked : bool
}.

Definition SecurityError : exn :=
  Exn "SecurityError" (VStr "The operation is insecure.").
Definition QuotaExceededError : exn :=
  Exn "QuotaExceededError" (VStr "The quota has been exceeded.").

Fixpoint find (k : string) (l : list (string * string)) : option string :=
  match l with
  | [] => None
  | (k', v) :: l' => if decide (k = k') then Some v else find k l'
  end.

(** Replaces the value in place when the key exists, else appends. *)
Fixpoint put (k v : string) (l : list (string * string))
    : list (string * string) :=
  match l with
  | [] => [(k, v)]
  | (k', v') :: l' =>
      if decide (k = k') then (k, v) :: l' else (k', v') :: put k v l'
  end.

Fixpoint drop_key (k : string) (l : list (string * string))
    : list (string * string) :=
  match l with
  | [] => []
  | (k', v') :: l' =>
      if decide (k = k') then l' else (k', v') :: drop_key k l'
  end.

Definition used (l : list (string * string)) : nat :=
  foldr (λ kv n, String.length kv.1 + String.length kv.2 + n) 0 l.

(** Reading [localStorage] raises when storage is denied to the page. *)
Definition access : js area area :=
  let! a := get in
  if blocked a then throw SecurityError else ret a.

Definition of_option (o : option string) : jsval :=
  match o with
  | Some s => VStr s
  | None => VNull
  end.

(** The [unsigned long] an index argument converts to; what a string
    converts to is left to [of_string]. *)
Definition index (of_string : string → N) (v : jsval) : N :=
  match v with
  | VUndef | VNull => 0
  | VBool b => if b then 1 else 0
  | VNum (Decimal negative digits exponent) =>
      let whole :=
        if (0 <=? exponent)%Z then (Z.of_N digits * 10 ^ exponent)%Z
        else (Z.of_N digits / 10 ^ (- exponent))%Z in
      Z.to_N ((if negative then - whole else whole) mod 2 ^ 32)
  | VNum _ => 0
  | VStr s => (of_string s mod 2 ^ 32)%N
  end.

Definition localStorage (of_string : string → N) : Backend area := {|
  getItem k :=
    let! a := access in
    ret (of_option (find (ToString k) (items a)));
  setItem k v :=
    let! a := access in
    let items' := put (ToString k) (ToString v) (items a) in
    if decide (used items' ≤ quota a)%nat
    then modify (λ a, Area items' (quota a) (blocked a))
    else throw QuotaExceededError;
  removeItem k :=
    let! a := access in
    modify (λ a, Area (drop_key (ToString k) (items a)) (quota a) (blocked a));
  clear :=
    let! a := access in
    modify (λ a, Area [] (quota a) (blocked a));
  length :=
    let! a := access in
    ret (VNum (of_nat (List.length (items a))));
  key v :=
    let! a := access in
    ret (of_option (fst <$> items a !! N.to_nat (index of_string v)))
|}.

End Storage.

(** ** The server half *)

Module Server.

Record frame (S : Type) : Type := Frame {
  storage : S;
  output : list effect
}.
Arguments Frame {S} storage output.
Arguments storage {S} f.
Arguments output {S} f.

Section Dispatcher.

Context {S : Type} `{!Storage.Backend S}.

(** A member of [localStorage], run on the frame's storage. *)
Definition on_storage {A} (c : js S A) : js (frame S) A :=
  λ f, match c (storage f) with
       | (r, s') => (r, Frame s' (output f))
       end.

Definition emit (e : effect) : js (frame S) unit :=
  modify (λ f, Frame (storage f) (output f ++ [e])).

Definition sendMessage (targetWindow : window) (message : Msg.t)
    (origin : string) : js (frame S) unit :=
  emit (PostMessage targetWindow (JSON_stringify message) origin).

(** [clientOrigin !== '*' && event.origin !== clientOrigin] *)
Definition mismatch (clientOrigin incoming : string) : bool :=
  negb (bool_decide (clientOrigin = "*"))
  && negb (bool_decide (incoming = clientOrigin)).

(** The listener past its origin check. *)
Definition process (clientOrigin : string) (event : MessageEvent)
    : js (frame S) unit :=
    let! message := JSON_parse (data event) in
    let sendSuccess := λ value : jsval,
      sendMessage (source event)
        (Msg.mk (VStr "frameStorageSuccess") (Msg.ref message)
                (Msg.key message) value VUndef)
        clientOrigin in
    let sendError := λ error : exn,
      sendMessage (source event)
        (Msg.mk (VStr "frameStorageError") (Msg.ref message)
                (Msg.key message) VUndef (exn_message error))
        clientOrigin in
    let action := Msg.action message in
    if strict_eq action (VStr "getItem") then
      try_catch
        (let! value := on_storage (Storage.getItem (Msg.key message)) in
         sendSuccess value)
        sendError
    else if strict_eq action (VStr "setItem") then
      try_catch
        (on_storage (Storage.setItem (Msg.key message) (Msg.value message)) ;;;
         sendSuccess VNull)
        sendError
    else if strict_eq action (VStr "removeItem") then
      try_catch
        (on_storage (Storage.removeItem (Msg.key message)) ;;;
         sendSuccess VNull)
        sendError
    else if strict_eq action (VStr "clear") then
      try_catch
        (on_storage Storage.clear ;;; sendSuccess VUndef)
        sendError
    else if strict_eq action (VStr "length") then
      try_catch
        (let! n := on_storage Storage.length in sendSuccess n)
        sendError
    else if strict_eq action (VStr "key") then
      try_catch
        (let! name := on_storage (Storage.key (Msg.value message)) in
         sendSuccess name)
        sendError
    else
      emit (ConsoleError "Unknown action").

(** The listener [initChannel] installs, [clientOrigin] defaulted. *)
Definition listener (clientOrigin : string) (event : MessageEvent)
    : js (frame S) unit :=
  if mismatch clientOrigin (origin event)
  then emit (ConsoleError "Origin mismatch")
  else process clientOrigin event.

(** [initChannel(clientOrigin)]: [None] is a [null] or omitted argument. *)
Definition initChannel (clientOrigin : option string)
    : MessageEvent → js (frame S) unit :=
  listener (default "*" clientOrigin).

End Dispatcher.

End Server.

(** ** The two halves at work *)

Module System.

(** What the environment does to the page. *)
Inductive input : Type :=
| Invoke (c : call)                 (* a call of one of the five operations *)
| Destroy                           (* a call of [destroy] *)
| FrameLoaded                       (* the frame's load event *)
| Receive (event : MessageEvent).   (* a message event on the page's window *)

(** An exception a listener raises is reported by the browser; the event
    loop goes on. *)
Definition reported {S} (c : js S unit) : js S unit :=
  try_catch c (λ _, ret tt).

(** A message event reaches every listener attached to the window. *)
Definition dispatch (event : MessageEvent) : js page unit :=
  let! p := get in
  forEach (listeners p) (λ w, reported (FS.handleMessageEvent w event)).

Definition step (i : input) : js page unit :=
  match i with
  | Invoke c => Handle.invoke c
  | Destroy => Handle.destroy
  | FrameLoaded => FS.iframe_onload
  | Receive event => dispatch event
  end.

Definition run (inputs : list input) (p : page) : page :=
  foldl (λ p i, exec (step i) p) p inputs.

(** The effects added to a trace since it was [before]. *)
Definition since (before now : list effect) : list effect :=
  drop (List.length before) now.

(** Whether the browser hands a message posted by [sender] with
    [targetOrigin] to the window [receiver]: always for [*], for [/] when
    the two documents have the same origin, and else when [targetOrigin]
    is a URL whose origin is that of the receiver's document. *)
Definition delivers (b : browser) (sender receiver : window)
    (targetOrigin : string) : bool :=
  bool_decide (targetOrigin = "*")
  || (bool_decide (targetOrigin = "/")
      && bool_decide (document_origin b sender = document_origin b receiver))
  || bool_decide (url_origin b targetOrigin
                  = Some (document_origin b receiver)).

(** The messages among the effects of [sender] that reach [receiver], as
    the events it gets: those posted to it that the browser delivers,
    tagged with the sender's origin and window. *)
Definition as_events (b : browser) (sender receiver : window)
    (effects : list effect) : list MessageEvent :=
  effects ≫= λ e,
    match e with
    | PostMessage target payload targetOrigin =>
        if bool_decide (target = receiver)
           && delivers b sender receiver targetOrigin
        then [Event (document_origin b sender) sender payload]
        else []
    | _ => []
    end.

(** The frame's window receives the events one after the other, each
    given to the listener [initChannel] installed. *)
Definition serve {S} `{!Storage.Backend S} (clientOrigin : option string)
    (events : list MessageEvent) : js (Server.frame S) unit :=
  forEach events (λ event, reported (Server.initChannel clientOrigin event)).

(** The envelope an operation sends under the reference [ref]. *)
Definition request (ref : string) (c : call) : Msg.t :=
  match c with
  | Load k _ => Msg.mk (VStr "getItem") (VStr ref) k VUndef VUndef
  | Save k v _ => Msg.mk (VStr "setItem") (VStr ref) k v VUndef
  | Empty _ => Msg.mk (VStr "clear") (VStr ref) VUndef VUndef VUndef
  | Count _ => Msg.mk (VStr "length") (VStr ref) VUndef VUndef VUndef
  | Key v _ => Msg.mk (VStr "key") (VStr ref) VUndef v VUndef
  end.

Definition handler_of (c : call) : option handler :=
  match c with
  | Load _ cb | Save _ _ cb | Empty cb | Count cb | Key _ cb => cb
  end.

(** The warning an operation called without a handler logs. *)
Definition warning (c : call) : list effect :=
  match c with
  | Load _ None =>
      [ConsoleWarn "FrameStorage.getItem: Missing callback function"]
  | Empty None =>
      [ConsoleWarn "FrameStorage.clear: Missing callback function"]
  | Count None =>
      [ConsoleWarn "FrameStorage.length: Missing callback function"]
  | _ => []
  end.

(** The operation called directly on the frame window [w]. *)
Definition direct (w : window) (o : string) (c : call) : js page unit :=
  match c with
  | Load k cb => FS.load w o k cb
  | Save k v cb => FS.save w o k v cb
  | Empty cb => FS.empty w o cb
  | Count cb => FS.count w o cb
  | Key v cb => FS.key w o v cb
  end.

(** The page after [direct w o c]: one draw, the handler registered when
    there is one, the warning when there is none, and the envelope. *)
Definition sent (w : window) (o : string) (c : call) (p : page) : page :=
  let ref := FS.guid (Math_random p (draws p)) in
  Page (match handler_of c with
        | Some h => <[ref := Completion h]> (callbacks p)
        | None => callbacks p
        end)
       (Math_random p) (client p) (S (draws p)) (body p) (listeners p)
       (trace p ++ warning c
          ++ [PostMessage w (JSON_stringify (request ref c)) o])
       (chan p).

(** The channel variables and the listener as [onload] sets them, before
    it replays the buffer. *)
Definition opened (p : page) : page :=
  let c := chan p in
  let b := Some (contentWindow c, channelOrigin c) in
  Page (callbacks p) (Math_random p) (client p) (draws p) (body p)
       (listeners p ++ [contentWindow c]) (trace p)
       (Channel (root c) (buffer c) (Some (contentWindow c))
                (Some (contentWindow c)) b b b b b (channelOrigin c)
                (contentWindow c) (srcSet c) (onloadDone c)).

(** The page after the frame's first load: every buffered call made
    directly, in the order of the buffer, and the buffer emptied. *)
Definition loaded (p : page) : page :=
  let q := opened (with_chan (set_onloadDone true) p) in
  with_chan (set_buffer [])
    (foldl (λ q c, sent (contentWindow (chan p)) (channelOrigin (chan p)) c q)
           q (buffer (chan p))).

(** The page after a call that was buffered. *)
Definition queued (c : call) (p : page) : page :=
  with_chan (λ ch, set_buffer (buffer ch ++ [c]) ch) p.

(** The bound function an operation tests and calls. *)
Definition bound_of (c : call) (ch : channel) : option bound :=
  match c with
  | Load _ _ => boundLoad ch
  | Save _ _ _ => boundSave ch
  | Empty _ => boundEmpty ch
  | Count _ => boundCount ch
  | Key _ _ => boundKey ch
  end.

(** The page after a [destroy] that returned. *)
Definition destroyed (p : page) : page :=
  let c := chan p in
  Page (callbacks p) (Math_random p) (client p) (draws p)
       (match root c with
        | Some r => remove_first r (body p)
        | None => body p
        end)
       (match targetWindow c, boundMessageEventHandler c with
        | Some _, Some l => remove_first l (listeners p)
        | _, _ => listeners p
        end)
       (trace p)
       (Channel None (buffer c) None None None None (boundEmpty c)
                (boundCount c) (boundKey c) (channelOrigin c)
                (contentWindow c) (srcSet c) (onloadDone c)).

(** What a list of calls made directly adds to the trace, the first of
    them taking the draw [n]. *)
Fixpoint envelopes (w : window) (o : string) (random : nat → N * list N)
    (n : nat) (cs : list call) : list effect :=
  match cs with
  | [] => []
  | c :: cs' =>
      warning c
      ++ PostMessage w (JSON_stringify (request (FS.guid (random n)) c)) o
      :: envelopes w o random (S n) cs'
  end.

(** What a call, the frame's load or a message does to the page, in
    elementary moves. *)
Inductive move : page → page → Prop :=
| move_sent w o c p :
    bound_of c (chan p) = Some (w, o) → move p (sent w o c p)
| move_queued c p :
    bound_of c (chan p) = None → move p (queued c p)
| move_loaded p :
    srcSet (chan p) = true → onloadDone (chan p) = false →
    move p (loaded p)
| move_called f err val p :
    move p (with_trace (λ t, t ++ [CallHandler f err val]) p)
| move_unknown p :
    move p (with_trace (λ t, t ++ [ConsoleError "Unknown action"]) p)
| move_forgot ref p :
    move p (with_callbacks (delete ref) p).

(** The channel before its frame has loaded. *)
Definition waiting (c : channel) : Prop :=
  boundSave c = None ∧ boundLoad c = None ∧ boundEmpty c = None
  ∧ boundCount c = None ∧ boundKey c = None
  ∧ srcSet c = true ∧ onloadDone c = false.

(** The channel once its frame has loaded, and until [destroy]. *)
Definition ready (c : channel) : Prop :=
  let b := Some (contentWindow c, channelOrigin c) in
  boundSave c = b ∧ boundLoad c = b ∧ boundEmpty c = b
  ∧ boundCount c = b ∧ boundKey c = b
  ∧ onloadDone c = true.

(** The channel serves: its frame has loaded, nothing is buffered. *)
Definition serving (p : page) : Prop :=
  ready (chan p) ∧ buffer (chan p) = [].

(** The root is under the body while the channel holds it, and the
    listener is on the window while the channel holds the frame window. *)
Definition attached (p : page) : Prop :=
  (∀ r, root (chan p) = Some r → r ∈ body p)
  ∧ targetWindow (chan p) = boundMessageEventHandler (chan p)
  ∧ (∀ w, targetWindow (chan p) = Some w → w ∈ listeners p).

Definition is_destroy (i : input) : bool :=
  match i with
  | Destroy => true
  | _ => false
  end.

Definition addressed_to (o : string) (e : effect) : Prop :=
  match e with
  | PostMessage _ _ o' => o' = o
  | _ => True
  end.

(** The channel is pinned to the origin [o]: its bound functions carry
    it, and so does every message posted since the trace was [before]. *)
Definition pinned (o : string) (before : list effect) (p : page) : Prop :=
  channelOrigin (chan p) = o
  ∧ (∀ c w o', bound_of c (chan p) = Some (w, o') → o' = o)
  ∧ ∃ added, trace p = before ++ added ∧ Forall (addressed_to o) added.

(** What reading a message as an envelope raises, when it does. *)
Definition unparseable (d : wire) : option exn :=
  match d with
  | Garbage _ => Some SyntaxError
  | JsonNull => Some (TypeError "Cannot read properties of null")
  | Json _ => None
  end.

(** The storage operation an action names, with the value its success
    reports. *)
Definition perform {S} `{!Storage.Backend S} (m : Msg.t)
    : option (js S jsval) :=
  let action := Msg.action m in
  if strict_eq action (VStr "getItem") then
    Some (Storage.getItem (Msg.key m))
  else if strict_eq action (VStr "setItem") then
    Some (Storage.setItem (Msg.key m) (Msg.value m) ;;; ret VNull)
  else if strict_eq action (VStr "removeItem") then
    Some (Storage.removeItem (Msg.key m) ;;; ret VNull)
  else if strict_eq action (VStr "clear") then
    Some (Storage.clear ;;; ret VUndef)
  else if strict_eq action (VStr "length") then
    Some Storage.length
  else if strict_eq action (VStr "key") then
    Some (Storage.key (Msg.value m))
  else None.

(** The envelope that answers the request [m] with the outcome [r]. *)
Definition reply (m : Msg.t) (r : completion jsval) : Msg.t :=
  match r with
  | Normal v =>
      Msg.mk (VStr "frameStorageSuccess") (Msg.ref m) (Msg.key m) v VUndef
  | Throw e =>
      Msg.mk (VStr "frameStorageError") (Msg.ref m) (Msg.key m) VUndef
             (exn_message e)
  end.

(** The two arguments a completion handler gets when the reply to a
    request whose operation had the outcome [r] arrives. *)
Definition arguments (r : completion jsval) : jsval * jsval :=
  match r with
  | Normal v => (VNull, jsonify v)
  | Throw e => (jsonify (exn_message e), VNull)
  end.

(** The call of the function [h] that this reply makes. *)
Definition completes (h : function) (r : completion jsval) : effect :=
  CallHandler h (arguments r).1 (arguments r).2.

(** The page after the call [h(err, val)] of a function of the client. *)
Definition called (h : function) (err val : jsval) (p : page) : page :=
  with_trace (λ t, t ++ [CallHandler h err val]) p.

(** What the listener does on a response that finds the handler [h] under
    [ref] and calls it with [(err, val)]: the entry is removed when the
    call returns, and stays when the call throws, the exception leaving
    the listener. *)
Definition resolved (ref : string) (h : handler) (err val : jsval)
    (p : page) : completion unit * page :=
  match h with
  | Callable f =>
      match client p f err val (trace p) with
      | None => (Normal tt, with_callbacks (delete ref) (called f err val p))
      | Some e => (Throw e, called f err val p)
      end
  | Uncallable => (Throw (TypeError "callback is not a function"), p)
  end.

End System.
Export System.

(** ** A page, a frame and a storage area to run the model on *)

Module Sample.

Definition digits (n : nat) : N * list N := (N.of_nat n, [10; 11]%N).

(** The functions of the sample client return, but the one numbered 13,
    which throws. *)
Definition failure : exn := Exn "Error" (VStr "handler failed").

Definition behaviour (f : function) (err val : jsval) (t : list effect)
    : option exn :=
  if decide (f = 13) then Some failure else None.

Definition blank : page :=
  Page ∅ digits behaviour 0 [] [] []
       (Channel None [] None None None None None None None "" 0 false false).

Definition page_window : window := 1.
Definition frame_window : window := 7.

(** The page is served from [https://app.example], the frame from
    [https://store.example]; these two addresses are their own origins. *)
Definition browser : Dom.browser :=
  Browser
    (λ w, if decide (w = frame_window) then "https://store.example"
          else "https://app.example")
    (λ url, if bool_decide (url ∈ ["https://app.example";
                                   "https://store.example"])
            then Some url else None).

(** The page just after [FrameStorage("https://store.example/channel.html")]. *)
Definition constructed : page :=
  exec (FS.FrameStorage "https:" "app.example"
          "https://store.example/channel.html" frame_window) blank.

(** The same once the frame has loaded. *)
Definition connected : page := exec FS.iframe_onload constructed.

Definition localStorage : Storage.Backend Storage.area :=
  Storage.localStorage (λ _, 0%N).

Definition frame : Server.frame Storage.area :=
  Server.Frame (Storage.Area [] 1000 false) [].

Definition success (ref : string) (value : jsval) : Msg.t :=
  Msg.mk (VStr "frameStorageSuccess") (VStr ref) VUndef value VUndef.

End Sample.

(** ** Shapes of identifiers, requests and answers *)

Module Shape.

(** A character of [0-9a-f]. *)
Definition hex_digit (c : ascii) : bool :=
  let n := N_of_ascii c in
  ((48 <=? n) && (n <=? 57))%N || ((97 <=? n) && (n <=? 102))%N.

Fixpoint all_chars (f : ascii → bool) (s : string) : bool :=
  match s with
  | EmptyString => true
  | String c s' => f c && all_chars f s'
  end.

(** The actions the five operations of the handle put in an envelope. *)
Definition client_actions : list jsval :=
  [VStr "getItem"; VStr "setItem"; VStr "clear"; VStr "length"; VStr "key"].

(** An effect that, if it is a message, is a request of the handle. *)
Definition is_request (e : effect) : Prop :=
  match e with
  | PostMessage _ (Json m) _ => Msg.action m ∈ client_actions
  | PostMessage _ _ _ => False
  | _ => True
  end.

(** What the dispatcher may do on an event when [o] is the origin it
    expects: log an error, or post to the sender of the event, at [o]. *)
Definition answers (event : MessageEvent) (o : string) (e : effect) : Prop :=
  match e with
  | PostMessage target _ targetOrigin =>
      target = source event ∧ targetOrigin = o
  | ConsoleError _ => True
  | _ => False
  end.

(** The page hosts this channel only: the one message listener there can
    be is the channel's, attached from the load to [destroy]. *)
Definition sole (frame : window) (p : page) : Prop :=
  contentWindow (chan p) = frame
  ∧ srcSet (chan p) = true
  ∧ targetWindow (chan p) = boundMessageEventHandler (chan p)
  ∧ listeners p = option_list (targetWindow (chan p))
  ∧ ∀ w, targetWindow (chan p) = Some w →
         w = frame ∧ onloadDone (chan p) = true.

(** The channel after a [destroy] that followed the load. *)
Definition closed (p : page) : Prop :=
  listeners p = [] ∧ targetWindow (chan p) = None
  ∧ boundSave (chan p) = None ∧ boundLoad (chan p) = None
  ∧ onloadDone (chan p) = true.

(** What a closed channel still does: it logs, and posts [clear], [length]
    and [key] requests. *)
Definition residual (e : effect) : Prop :=
  match e with
  | PostMessage _ (Json m) _ =>
      Msg.action m ∈ [VStr "clear"; VStr "length"; VStr "key"]
  | PostMessage _ _ _ => False
  | CallHandler _ _ _ => False
  | _ => True
  end.

(** The calls of the five operations among the inputs, in order. *)
Definition invoked (inputs : list input) : list call :=
  omap (λ i, match i with Invoke c => Some c | _ => None end) inputs.

End Shape.
Export Shape.

(** * Properties *)

(** ** The monad *)

Section MonadFacts.

Context {S A B : Type}.

Lemma bind_ret (a : A) (k : A → js S B) : bind (ret a) k = k a.
Proof. reflexivity. Qed.

Lemma bind_throw (e : exn) (k : A → js S B) : bind (throw e) k = throw e.
Proof. reflexivity. Qed.

Lemma bind_get (k : S → js S B) (s : S) : bind get k s = k s s.
Proof. reflexivity. Qed.

Lemma bind_modify (f : S → S) (k : unit → js S B) (s : S) :
  bind (modify f) k s = k tt (f s).
Proof. reflexivity. Qed.

Lemma bind_normal (c : js S A) (k : A → js S B) (s s' : S) (a : A) :
  c s = (Normal a, s') → bind c k s = k a s'.
Proof. unfold bind. by intros ->. Qed.

Lemma bind_thrown (c : js S A) (k : A → js S B) (s s' : S) (e : exn) :
  c s = (Throw e, s') → bind c k s = (Throw e, s').
Proof. unfold bind. by intros ->. Qed.

End MonadFacts.

Lemma forEach_app {S A} (l1 l2 : list A) (f : A → js S unit) (s : S) :
  forEach (l1 ++ l2) f s = (forEach l1 f ;;; forEach l2 f) s.
Proof.
  revert s. induction l1 as [|x l1 IH]; intros s; [reflexivity|].
  cbn [forEach app]. unfold bind.
  destruct (f x s) as [[[]|e] s']; [|reflexivity].
  rewrite IH. reflexivity.
Qed.

(** ** The server half *)

Section ServerFacts.

Context {S : Type} `{!Storage.Backend S}.

Lemma mismatch_false (expected incoming : string) :
  Server.mismatch expected incoming = false
  ↔ expected = "*" ∨ incoming = expected.
Proof.
  unfold Server.mismatch.
  do 2 case_bool_decide; simpl; intuition congruence.
Qed.

Lemma listener_accepts (expected : string) (event : MessageEvent) :
  Server.mismatch expected (origin event) = false →
  Server.listener expected event = Server.process expected event.
Proof. unfold Server.listener. by intros ->. Qed.

Lemma listener_discards (expected : string) (event : MessageEvent)
    (f : Server.frame S) :
  Server.mismatch expected (origin event) = true →
  Server.listener expected event f
  = (Normal tt,
     Server.Frame (Server.storage f)
                  (Server.output f ++ [ConsoleError "Origin mismatch"])).
Proof. unfold Server.listener. by intros ->. Qed.

(** Past the origin check, a request whose action names a storage operation
    runs it and posts exactly the reply to its outcome. *)
Lemma process_performs (expected : string) (event : MessageEvent)
    (m : Msg.t) (op : js S jsval) (f : Server.frame S) :
  data event = Json m →
  perform m = Some op →
  Server.process expected event f
  = (Normal tt,
     Server.Frame (op (Server.storage f)).2
       (Server.output f
          ++ [PostMessage (source event)
                (JSON_stringify (reply m (op (Server.storage f)).1))
                expected])).
Proof.
  intros Hdata Hop. unfold Server.process, perform in *.
  rewrite Hdata. cbn [JSON_parse bind ret].
  repeat (case_match;
          [ injection Hop as <-;
            unfold try_catch, bind, ret, Server.on_storage,
                   Server.sendMessage, Server.emit, modify;
            repeat match goal with
                   | |- context [?c (Server.storage f)] =>
                       destruct (c (Server.storage f)) as [[?|?] ?]
                   end;
            reflexivity
          | ]).
  discriminate.
Qed.

End ServerFacts.

(** ** The client half: the operations *)

Section ClientFacts.

Implicit Types (p q : page) (c : call) (w : window) (o : string).

Lemma direct_sent w o c p : direct w o c p = (Normal tt, sent w o c p).
Proof.
  destruct c as [? []|? ? []|[]|[]|? []]; try reflexivity;
    cbv [direct FS.load FS.empty FS.count bind FS.makeGuid get modify ret
         FS.register FS.sendMessage postMessage console_warn log sent
         with_trace with_draws with_callbacks];
    cbn; by rewrite <- app_assoc.
Qed.

Lemma sent_chan w o c p : chan (sent w o c p) = chan p.
Proof. done. Qed.

Lemma sent_with_chan w o c (f : channel → channel) p :
  sent w o c (with_chan f p) = with_chan f (sent w o c p).
Proof. done. Qed.

Lemma foldl_sent_chan w o cs p :
  chan (foldl (λ q c, sent w o c q) p cs) = chan p.
Proof.
  revert p. induction cs as [|c cs IH]; intros p; [done|]. cbn. by rewrite IH.
Qed.

Lemma foldl_sent_with_chan w o cs (f : channel → channel) p :
  foldl (λ q c, sent w o c q) (with_chan f p) cs
  = with_chan f (foldl (λ q c, sent w o c q) p cs).
Proof.
  revert p. induction cs as [|c cs IH]; intros p; [done|].
  cbn. by rewrite sent_with_chan, IH.
Qed.

(** Replaying an entry when the five functions are bound is the direct
    call. *)
Lemma replay_direct w o c p :
  boundSave (chan p) = Some (w, o) → boundLoad (chan p) = Some (w, o) →
  boundEmpty (chan p) = Some (w, o) → boundCount (chan p) = Some (w, o) →
  boundKey (chan p) = Some (w, o) →
  FS.replay c p = (Normal tt, sent w o c p).
Proof.
  intros Hs Hl He Hc Hk. rewrite <- direct_sent.
  unfold FS.replay, bind, get. destruct c; cbn;
    rewrite ?Hs, ?Hl, ?He, ?Hc, ?Hk; done.
Qed.

Lemma forEach_replay w o cs p :
  boundSave (chan p) = Some (w, o) → boundLoad (chan p) = Some (w, o) →
  boundEmpty (chan p) = Some (w, o) → boundCount (chan p) = Some (w, o) →
  boundKey (chan p) = Some (w, o) →
  forEach cs FS.replay p = (Normal tt, foldl (λ q c, sent w o c q) p cs).
Proof.
  revert p. induction cs as [|c cs IH]; intros p Hs Hl He Hc Hk; [done|].
  cbn [forEach foldl]. unfold bind at 1.
  rewrite (replay_direct w o) by done. by apply IH.
Qed.

Lemma onload_loaded p :
  FS.onload (with_chan (set_onloadDone true) p) = (Normal tt, loaded p).
Proof.
  unfold FS.onload, loaded.
  cbv [bind get modify addEventListener].
  by erewrite forEach_replay.
Qed.

(** The frame's load handler returns; it acts once. *)
Lemma iframe_onload_total p :
  FS.iframe_onload p
  = (Normal tt,
     if srcSet (chan p) && negb (onloadDone (chan p)) then loaded p else p).
Proof.
  unfold FS.iframe_onload. cbv [bind get modify].
  destruct (_ && _); [|done].
  by rewrite onload_loaded.
Qed.

End ClientFacts.

(** ** The client half: the message listener *)

Section ListenerFacts.

Implicit Types (p q : page) (m : Msg.t) (w tw : window) (o : string)
  (h : handler).

Lemma jsonify_idempotent (v : jsval) : jsonify (jsonify v) = jsonify v.
Proof.
  destruct v as [| | |[|?|negative digits exponent]|]; try reflexivity.
  cbn. by destruct negative, (digits =? 0)%N.
Qed.

Lemma read_back_idempotent m : read_back (read_back m) = read_back m.
Proof. unfold read_back. cbn. by rewrite !jsonify_idempotent. Qed.

Lemma hex_char_not_o (d : N) : FS.hex_char d ≠ "o"%char.
Proof. unfold FS.hex_char. by repeat case_match. Qed.

(** A reference made by [makeGuid] is not the name of a member of
    [Object.prototype]. *)
Lemma guid_not_inherited (digits : N * list N) :
  inherited (FS.guid digits) = false.
Proof.
  apply bool_decide_eq_false. unfold FS.guid, Object_prototype_names.
  intros Hin. cbn in Hin.
  repeat (apply elem_of_cons in Hin as [Heq|Hin]; [try discriminate|]).
  - injection Heq as Heq _. by apply hex_char_not_o in Heq.
  - by apply elem_of_nil in Hin.
Qed.

(** A call of what the caller gave as [cb]: a function is called, which
    is recorded, and returns or throws; another value cannot be called. *)
Lemma call_result h err val p :
  FS.call h err val p
  = match h with
    | Callable f =>
        (match client p f err val (trace p) with
         | Some e => Throw e
         | None => Normal tt
         end, called f err val p)
    | Uncallable => (Throw (TypeError "callback is not a function"), p)
    end.
Proof.
  destruct h as [f|]; [|done].
  cbv [FS.call bind get log modify]. cbn.
  by destruct (client p f err val (trace p)).
Qed.

Lemma invoke_result (f : FS.callee) (err val : jsval) p :
  FS.invoke f err val p
  = match f with
    | FS.Registered (Completion h) => FS.call h err val p
    | FS.Registered IframeOnload =>
        (Normal tt,
         if srcSet (chan p) && negb (onloadDone (chan p))
         then loaded p else p)
    | FS.Inherited name =>
        if inherited_call_returns name then (Normal tt, p)
        else (Throw (TypeError "callback is not a function"), p)
    | FS.Nothing => (Normal tt, p)
    end.
Proof.
  destruct f as [[h|]|name|]; cbn [FS.invoke]; try done.
  - apply iframe_onload_total.
  - by destruct (inherited_call_returns name).
Qed.

Lemma lookup_callback_absent (registry : gmap string callback) (ref : string) :
  registry !! ref = None →
  FS.lookup_callback registry ref
  = if inherited ref then FS.Inherited ref else FS.Nothing.
Proof. unfold FS.lookup_callback. by intros ->. Qed.

Lemma lookup_callback_present (registry : gmap string callback)
    (ref : string) (cb : callback) :
  registry !! ref = Some cb →
  FS.lookup_callback registry ref = FS.Registered cb.
Proof. unfold FS.lookup_callback. by intros ->. Qed.

Lemma delete_absent p (ref : string) :
  callbacks p !! ref = None → with_callbacks (delete ref) p = p.
Proof.
  intros H. destruct p. unfold with_callbacks. cbn in *.
  by rewrite delete_id.
Qed.

Lemma handle_other_source tw (event : MessageEvent) p :
  source event ≠ tw → FS.handleMessageEvent tw event p = (Normal tt, p).
Proof.
  intros H. unfold FS.handleMessageEvent. by rewrite bool_decide_eq_false_2.
Qed.

Lemma handle_garbage tw o (text : string) p :
  FS.handleMessageEvent tw (Event o tw (Garbage text)) p
  = (Throw SyntaxError, p).
Proof. unfold FS.handleMessageEvent. by rewrite bool_decide_eq_true_2. Qed.

Lemma handle_null tw o p :
  FS.handleMessageEvent tw (Event o tw JsonNull) p
  = (Throw (TypeError "Cannot read properties of null"), p).
Proof. unfold FS.handleMessageEvent. by rewrite bool_decide_eq_true_2. Qed.

(** The listener throws what reading the message raises, before it has
    done anything. *)
Lemma handle_unparseable tw (event : MessageEvent) (e : exn) p :
  unparseable (data event) = Some e →
  source event = tw →
  FS.handleMessageEvent tw event p = (Throw e, p).
Proof.
  intros Hdata <-. destruct event as [o tw [text| |m]]; simplify_eq/=.
  - apply handle_garbage.
  - apply handle_null.
Qed.

(** A message that cannot be read leaves the page as it is, whichever
    listeners the window has, and the event loop goes on. *)
Lemma dispatch_unparseable (event : MessageEvent) (e : exn) p :
  unparseable (data event) = Some e → dispatch event p = (Normal tt, p).
Proof.
  intros Hdata. unfold dispatch. rewrite bind_get.
  generalize (listeners p). intros ls.
  induction ls as [|w ls IH]; [done|]. cbn [forEach].
  unfold bind, reported, try_catch.
  destruct (decide (source event = w)) as [Hw|Hw].
  - by rewrite (handle_unparseable w event e p Hdata Hw).
  - by rewrite (handle_other_source w event p Hw).
Qed.

(** The listener on an envelope from its frame: the [switch], then the
    [delete]. *)
Lemma handle_envelope tw o m p :
  FS.handleMessageEvent tw (Event o tw (Json m)) p
  = let ref := ToString (Msg.ref m) in
    let f := FS.lookup_callback (callbacks p) ref in
    if strict_eq (Msg.action m) (VStr "frameStorageSuccess") then
      (FS.invoke f VNull (Msg.value m) ;;;
       modify (with_callbacks (delete ref))) p
    else if strict_eq (Msg.action m) (VStr "frameStorageError") then
      (FS.invoke f (Msg.message m) VNull ;;;
       modify (with_callbacks (delete ref))) p
    else
      (Normal tt,
       with_callbacks (delete ref)
         (with_trace (λ t, t ++ [ConsoleError "Unknown action"]) p)).
Proof.
  unfold FS.handleMessageEvent. rewrite bool_decide_eq_true_2 by done.
  cbn [data JSON_parse]. rewrite bind_ret, bind_get.
  by repeat case_match.
Qed.

(** A response whose reference is registered to what a caller gave as
    [cb] calls it: the entry is removed when the call returns, and stays
    when it throws. *)
Lemma handle_resolves tw o m h (err val : jsval) p :
  callbacks p !! ToString (Msg.ref m) = Some (Completion h) →
  (Msg.action m = VStr "frameStorageSuccess"
     ∧ err = VNull ∧ val = Msg.value m)
  ∨ (Msg.action m = VStr "frameStorageError"
     ∧ err = Msg.message m ∧ val = VNull) →
  FS.handleMessageEvent tw (Event o tw (Json m)) p
  = resolved (ToString (Msg.ref m)) h err val p.
Proof.
  intros Hreg Hact. rewrite handle_envelope. cbn zeta.
  rewrite (lookup_callback_present _ _ _ Hreg).
  assert ((FS.invoke (FS.Registered (Completion h)) err val ;;;
           modify (with_callbacks (delete (ToString (Msg.ref m))))) p
          = resolved (ToString (Msg.ref m)) h err val p) as Hcall.
  { cbn [FS.invoke]. unfold bind. rewrite call_result. unfold resolved.
    destruct h as [f|]; [|done].
    by destruct (client p f err val (trace p)). }
  destruct Hact as [(-> & -> & ->)|(-> & -> & ->)]; exact Hcall.
Qed.

(** When the listener returns, the reference of the envelope is not
    registered any more; when it throws, the registry is as it was. *)
Lemma handle_outcome tw o m p :
  match FS.handleMessageEvent tw (Event o tw (Json m)) p with
  | (Normal _, q) => callbacks q !! ToString (Msg.ref m) = None
  | (Throw _, q) => callbacks q = callbacks p
  end.
Proof.
  rewrite handle_envelope. cbn zeta.
  set (ref := ToString (Msg.ref m)).
  assert (∀ err val,
    match (FS.invoke (FS.lookup_callback (callbacks p) ref) err val ;;;
           modify (with_callbacks (delete ref))) p with
    | (Normal _, q) => callbacks q !! ref = None
    | (Throw _, q) => callbacks q = callbacks p
    end) as Hinvoke.
  { intros err val. unfold bind. rewrite invoke_result.
    destruct (FS.lookup_callback (callbacks p) ref) as [[h|]|name|];
      cbn; try apply lookup_delete_eq.
    - rewrite call_result. destruct h as [f|]; [|done].
      destruct (client p f err val (trace p)); cbn;
        [done|apply lookup_delete_eq].
    - destruct (inherited_call_returns name); cbn;
        [apply lookup_delete_eq|done]. }
  destruct (strict_eq (Msg.action m) (VStr "frameStorageSuccess"));
    [apply Hinvoke|].
  destruct (strict_eq (Msg.action m) (VStr "frameStorageError"));
    [apply Hinvoke|].
  cbn. apply lookup_delete_eq.
Qed.

(** A response whose reference is not registered changes nothing: no
    handler is called and nothing is logged.  The listener returns, unless
    the reference names a member of [Object.prototype] that cannot be
    called this way. *)
Lemma handle_unregistered tw o m p :
  callbacks p !! ToString (Msg.ref m) = None →
  FS.handleMessageEvent tw (Event o tw (Json m)) p
  = if strict_eq (Msg.action m) (VStr "frameStorageSuccess")
       || strict_eq (Msg.action m) (VStr "frameStorageError")
    then
      if inherited (ToString (Msg.ref m))
         && negb (inherited_call_returns (ToString (Msg.ref m)))
      then (Throw (TypeError "callback is not a function"), p)
      else (Normal tt, p)
    else
      (Normal tt, with_trace (λ t, t ++ [ConsoleError "Unknown action"]) p).
Proof.
  intros Hreg. rewrite handle_envelope. cbn zeta.
  rewrite (lookup_callback_absent _ _ Hreg).
  set (ref := ToString (Msg.ref m)) in *.
  assert (∀ err val,
    (FS.invoke (if inherited ref then FS.Inherited ref else FS.Nothing)
               err val ;;;
     modify (with_callbacks (delete ref))) p
    = if inherited ref && negb (inherited_call_returns ref)
      then (Throw (TypeError "callback is not a function"), p)
      else (Normal tt, p)) as Hinvoke.
  { intros err val. unfold bind. rewrite invoke_result.
    destruct (inherited ref), (inherited_call_returns ref); cbn;
      try done; unfold modify; by rewrite delete_absent. }
  destruct (strict_eq (Msg.action m) (VStr "frameStorageSuccess"));
    [apply Hinvoke|].
  destruct (strict_eq (Msg.action m) (VStr "frameStorageError"));
    [apply Hinvoke|].
  cbn [orb]. by rewrite delete_absent.
Qed.

End ListenerFacts.

(** ** The claims about single messages *)

Section Messages.

Context {S : Type} `{!Storage.Backend S}.

Implicit Types (p : page) (m : Msg.t) (tw : window) (o : string)
  (f : Server.frame S) (event : MessageEvent).

(** The dispatcher's listener throws what reading the message raises, and
    the frame's event loop goes on with the events that follow. *)
Lemma serve_unparseable (clientOrigin : option string) event
    (events : list MessageEvent) (e : exn) f :
  unparseable (data event) = Some e →
  Server.mismatch (default "*" clientOrigin) (origin event) = false →
  Server.initChannel clientOrigin event f = (Throw e, f)
  ∧ exec (serve clientOrigin (event :: events)) f
    = exec (serve clientOrigin events) f.
Proof.
  intros Hdata Hm.
  assert (Server.initChannel clientOrigin event f = (Throw e, f)) as Hthrow.
  { unfold Server.initChannel. rewrite listener_accepts by done.
    unfold Server.process.
    destruct (data event); simplify_eq/=; reflexivity. }
  split; [done|].
  unfold exec, serve. cbn [forEach]. unfold bind, reported, try_catch.
  by rewrite Hthrow.
Qed.

(** C3. The dispatcher accepts every message when the expected origin is
    omitted or is the wildcard; when it is another string it accepts a
    message exactly when the message's origin equals it; a message it does
    not accept is logged as an origin mismatch and nothing else happens: the
    storage is untouched and nothing is posted. *)
Theorem dispatcher_validates_origin (clientOrigin : option string) event f :
  let expected := default "*" clientOrigin in
  let rejected := Server.mismatch expected (origin event) in
  (clientOrigin = None ∨ clientOrigin = Some "*" → rejected = false)
  ∧ (expected ≠ "*" → (rejected = false ↔ origin event = expected))
  ∧ (rejected = false →
       Server.initChannel clientOrigin event f
       = Server.process expected event f)
  ∧ (rejected = true →
       Server.initChannel clientOrigin event f
       = (Normal tt,
          Server.Frame (Server.storage f)
            (Server.output f ++ [ConsoleError "Origin mismatch"]))).
Proof.
  cbn zeta. repeat split.
  - intros [->| ->]; by apply mismatch_false; left.
  - intros Hm%mismatch_false. by destruct Hm.
  - intros ->. apply mismatch_false. by right.
  - intros Hm. unfold Server.initChannel. by rewrite listener_accepts.
  - intros Hm. unfold Server.initChannel. by rewrite listener_discards.
Qed.

(** C5, as the code has it. A message that cannot be read as an envelope
    is not processed: the storage and the registry are left as they were,
    nothing is posted and no handler is called. The dispatcher, which
    checks the origin before it reads the message, logs the mismatch and
    returns when it does not accept the origin. Otherwise nothing is logged
    and the exception that reading the message raises is not caught: it
    leaves the dispatcher's listener, and the client's listener when the
    message comes from the channel's frame. Neither side is changed by it,
    so that both event loops go on: the events that follow are handled as
    if the message had not come. *)
Theorem unparseable_message_is_dropped (clientOrigin : option string)
    event f tw p (e : exn) (events : list MessageEvent)
    (inputs : list input) :
  unparseable (data event) = Some e →
  let expected := default "*" clientOrigin in
  (Server.mismatch expected (origin event) = true →
     Server.initChannel clientOrigin event f
     = (Normal tt,
        Server.Frame (Server.storage f)
          (Server.output f ++ [ConsoleError "Origin mismatch"])))
  ∧ (Server.mismatch expected (origin event) = false →
     Server.initChannel clientOrigin event f = (Throw e, f)
     ∧ exec (serve clientOrigin (event :: events)) f
       = exec (serve clientOrigin events) f)
  ∧ (source event = tw → FS.handleMessageEvent tw event p = (Throw e, p))
  ∧ (source event ≠ tw → FS.handleMessageEvent tw event p = (Normal tt, p))
  ∧ dispatch event p = (Normal tt, p)
  ∧ run (Receive event :: inputs) p = run inputs p.
Proof.
  intros Hdata. cbn zeta.
  split; [|split; [|split; [|split; [|split]]]].
  - intros Hm. unfold Server.initChannel. by rewrite listener_discards.
  - intros Hm. by apply serve_unparseable.
  - by apply handle_unparseable.
  - apply handle_other_source.
  - by apply (dispatch_unparseable event e).
  - unfold run. cbn [foldl step]. unfold exec at 2.
    by rewrite (dispatch_unparseable event e).
Qed.

(** C6. A request the dispatcher accepts, whose action names a storage
    operation, is answered by exactly one envelope, posted to the sender: a
    success envelope with the value when the operation returns, an error
    envelope with the message of what it threw when it throws, which is
    caught. The answer carries the reference and the key of the request,
    as they are when the request was itself read from a message, and the
    client's listener calls what is registered under that reference with
    [(null, value)] or [(message, null)]: it removes the entry when the
    call returns, and throws what the call throws. *)
Theorem request_is_answered (clientOrigin : option string) event m
    (op : js S jsval) f :
  data event = Json m →
  Server.mismatch (default "*" clientOrigin) (origin event) = false →
  perform m = Some op →
  let outcome := (op (Server.storage f)).1 in
  let answer := reply m outcome in
  Server.initChannel clientOrigin event f
  = (Normal tt,
     Server.Frame (op (Server.storage f)).2
       (Server.output f
          ++ [PostMessage (source event) (JSON_stringify answer)
                (default "*" clientOrigin)]))
  ∧ Msg.ref answer = Msg.ref m
  ∧ Msg.key answer = Msg.key m
  ∧ Msg.action answer
    = VStr (match outcome with
            | Normal _ => "frameStorageSuccess"
            | Throw _ => "frameStorageError"
            end)
  ∧ (∀ sent, m = read_back sent →
       Msg.ref (read_back answer) = Msg.ref m
       ∧ Msg.key (read_back answer) = Msg.key m)
  ∧ ∀ tw o p (h : handler),
      let ref := ToString (Msg.ref (read_back answer)) in
      callbacks p !! ref = Some (Completion h) →
      FS.handleMessageEvent tw (Event o tw (JSON_stringify answer)) p
      = resolved ref h (arguments outcome).1 (arguments outcome).2 p
      ∧ ∀ g, h = Callable g →
          client p g (arguments outcome).1 (arguments outcome).2 (trace p)
          = None →
          FS.handleMessageEvent tw (Event o tw (JSON_stringify answer)) p
          = (Normal tt,
             with_callbacks (delete ref)
               (with_trace (λ t, t ++ [completes g outcome]) p)).
Proof.
  intros Hdata Horigin Hop. cbn zeta.
  split; [|split; [|split; [|split; [|split]]]].
  - unfold Server.initChannel. rewrite listener_accepts by done.
    by apply process_performs.
  - by destruct (op _).1.
  - by destruct (op _).1.
  - by destruct (op _).1.
  - intros sent ->. destruct (op _).1; cbn; by rewrite !jsonify_idempotent.
  - intros tw o p h Hreg.
    assert (FS.handleMessageEvent tw
              (Event o tw (JSON_stringify (reply m (op (Server.storage f)).1)))
              p
            = resolved
                (ToString
                   (Msg.ref (read_back (reply m (op (Server.storage f)).1))))
                h (arguments (op (Server.storage f)).1).1
                (arguments (op (Server.storage f)).1).2 p) as Hres.
    { apply handle_resolves; [done|].
      destruct (op _).1 as [v|e]; [by left|by right]. }
    split; [exact Hres|].
    intros g -> Hreturns. rewrite Hres. unfold resolved.
    by rewrite Hreturns.
Qed.

End Messages.

(** C2, as the code has it. A response whose reference is not registered
    changes nothing: no handler is called, the registry and the channel
    stay as they were and nothing is logged (but "Unknown action" when the
    action is neither success nor error). The listener returns, unless the
    reference is the name of a member of [Object.prototype] that cannot be
    called as a plain function: that member is what the lookup finds, and
    the [TypeError] of calling it leaves the listener; a reference made by
    [makeGuid] is never such a name. Hence a response that was handled
    and whose handler returned is not resolved again: handling a duplicate
    changes nothing. *)
Theorem unregistered_response_is_ignored (tw : window) (o : string)
    (m : Msg.t) (p : page) :
  let listener := FS.handleMessageEvent tw (Event o tw (Json m)) in
  let ref := ToString (Msg.ref m) in
  let known :=
    strict_eq (Msg.action m) (VStr "frameStorageSuccess")
    || strict_eq (Msg.action m) (VStr "frameStorageError") in
  let uncallable := inherited ref && negb (inherited_call_returns ref) in
  (callbacks p !! ref = None → known = true → uncallable = false →
     listener p = (Normal tt, p))
  ∧ (callbacks p !! ref = None → known = true → uncallable = true →
     ∃ e, listener p = (Throw e, p) ∧ exn_name e = "TypeError")
  ∧ (callbacks p !! ref = None → known = false →
     listener p
     = (Normal tt, with_trace (λ t, t ++ [ConsoleError "Unknown action"]) p))
  ∧ (∀ digits, Msg.ref m = VStr (FS.guid digits) → uncallable = false)
  ∧ (known = true → ∀ q, listener p = (Normal tt, q) →
     callbacks q !! ref = None
     ∧ (uncallable = false → listener q = (Normal tt, q))
     ∧ exec listener q = q).
Proof.
  cbn zeta. split; [|split; [|split; [|split]]].
  - intros Hreg Hknown Hcall. by rewrite handle_unregistered, Hknown, Hcall.
  - intros Hreg Hknown Hcall. rewrite handle_unregistered, Hknown, Hcall by done.
    by eexists.
  - intros Hreg Hknown. by rewrite handle_unregistered, Hknown.
  - intros digits ->. cbn [ToString]. by rewrite guid_not_inherited.
  - intros Hknown q Hq.
    pose proof (handle_outcome tw o m p) as Hout. rewrite Hq in Hout.
    split; [done|]. unfold exec.
    rewrite (handle_unregistered tw o m q Hout), Hknown.
    split; [by intros ->|]. by case_match.
Qed.

(** C9, as the code has it. When the client's listener, given an envelope
    from the channel's frame, returns, no entry is left in the registry
    under the envelope's reference; when the action is neither success nor
    error it logs "Unknown action" and removes the entry without calling
    anything. When what it calls throws, the exception leaves the listener
    before the [delete], and the registry is left as it was: a handler that
    throws, or a value that is not a function, stays registered. *)
Theorem listener_forgets_reference (tw : window) (o : string) (m : Msg.t)
    (p : page) :
  let listener := FS.handleMessageEvent tw (Event o tw (Json m)) in
  let ref := ToString (Msg.ref m) in
  (∀ q, listener p = (Normal tt, q) → callbacks q !! ref = None)
  ∧ (∀ e q, listener p = (Throw e, q) → callbacks q = callbacks p)
  ∧ (strict_eq (Msg.action m) (VStr "frameStorageSuccess") = false →
     strict_eq (Msg.action m) (VStr "frameStorageError") = false →
     listener p
     = (Normal tt,
        with_callbacks (delete ref)
          (with_trace (λ t, t ++ [ConsoleError "Unknown action"]) p)))
  ∧ (∀ (h : handler) (err val : jsval),
       callbacks p !! ref = Some (Completion h) →
       (Msg.action m = VStr "frameStorageSuccess"
          ∧ err = VNull ∧ val = Msg.value m)
       ∨ (Msg.action m = VStr "frameStorageError"
          ∧ err = Msg.message m ∧ val = VNull) →
       listener p = resolved ref h err val p
       ∧ (listener p).1
         = match h with
           | Callable f =>
               match client p f err val (trace p) with
               | Some e => Throw e
               | None => Normal tt
               end
           | Uncallable => Throw (TypeError "callback is not a function")
           end
       ∧ ((listener p).1 ≠ Normal tt →
          callbacks (listener p).2 !! ref = Some (Completion h))).
Proof.
  cbn zeta. pose proof (handle_outcome tw o m p) as Hout.
  split; [|split; [|split]].
  - intros q Hq. by rewrite Hq in Hout.
  - intros e q Hq. by rewrite Hq in Hout.
  - intros H1 H2. rewrite handle_envelope. cbn zeta. by rewrite H1, H2.
  - intros h err val Hreg Hact.
    rewrite (handle_resolves tw o m h err val p Hreg Hact).
    split; [done|]. unfold resolved.
    destruct h as [f|]; [|done].
    by destruct (client p f err val (trace p)).
Qed.

(** *** The same on the sample page and frame *)

Lemma dispatcher_validates_origin_witness :
  Server.initChannel (H := Sample.localStorage)
    (Some "https://trusted.example")
    (Event "https://evil.example" Sample.page_window
       (Json (request "c4ab" (Load (VStr "theme") (Some (Callable 2))))))
    Sample.frame
  = (Normal tt,
     Server.Frame (Server.storage Sample.frame)
       [ConsoleError "Origin mismatch"]).
Proof.
  pose proof
    (dispatcher_validates_origin (H := Sample.localStorage)
       (Some "https://trusted.example")
       (Event "https://evil.example" Sample.page_window
          (Json (request "c4ab" (Load (VStr "theme") (Some (Callable 2))))))
       Sample.frame) as T.
  cbv zeta in T. destruct T as (_ & _ & _ & T).
  exact (T eq_refl).
Defined.

(** Against C5 as stated: a text that is not JSON makes both listeners
    throw. *)
Lemma unparseable_message_throws :
  Server.initChannel (H := Sample.localStorage) None
    (Event "https://app.example" Sample.page_window (Garbage "{"))
    Sample.frame
  = (Throw SyntaxError, Sample.frame)
  ∧ FS.handleMessageEvent Sample.frame_window
      (Event "https://store.example" Sample.frame_window (Garbage "{"))
      Sample.connected
    = (Throw SyntaxError, Sample.connected).
Proof. split; [reflexivity|apply handle_garbage]. Qed.

Lemma unparseable_message_is_dropped_witness :
  let event :=
    Event "https://store.example" Sample.frame_window JsonNull in
  FS.handleMessageEvent Sample.frame_window event Sample.connected
  = (Throw (TypeError "Cannot read properties of null"), Sample.connected)
  ∧ run [Receive event; Invoke (Count None)] Sample.connected
    = run [Invoke (Count None)] Sample.connected.
Proof.
  cbn zeta.
  pose proof
    (unparseable_message_is_dropped (H := Sample.localStorage) None
       (Event "https://store.example" Sample.frame_window JsonNull)
       Sample.frame Sample.frame_window Sample.connected
       (TypeError "Cannot read properties of null") []
       [Invoke (Count None)] eq_refl) as T.
  cbv zeta in T. destruct T as (_ & _ & T1 & _ & _ & T2).
  split; [exact (T1 eq_refl)|exact T2].
Defined.

Lemma request_is_answered_witness :
  ∃ area' answer,
    Server.initChannel (H := Sample.localStorage) (Some "https://app.example")
      (Event "https://app.example" Sample.page_window
         (Json (request "c4ab" (Save (VStr "theme") (VStr "dark") None))))
      Sample.frame
    = (Normal tt,
       Server.Frame area'
         [PostMessage Sample.page_window (JSON_stringify answer)
            "https://app.example"])
    ∧ Msg.ref answer = VStr "c4ab".
Proof.
  destruct (request_is_answered (H := Sample.localStorage)
              (Some "https://app.example")
              (Event "https://app.example" Sample.page_window
                 (Json (request "c4ab"
                          (Save (VStr "theme") (VStr "dark") None))))
              (request "c4ab" (Save (VStr "theme") (VStr "dark") None))
              (Storage.setItem (Backend := Sample.localStorage)
                 (VStr "theme") (VStr "dark") ;;; ret VNull)
              Sample.frame eq_refl eq_refl eq_refl)
    as (Hanswer & Href & _).
  eexists _, _. split; [exact Hanswer|exact Href].
Defined.

(** Against C2 as stated: a response under a reference nobody registered
    is handled without any warning. *)
Lemma unregistered_response_logs_nothing :
  let p := Sample.connected in
  let q := exec (FS.handleMessageEvent Sample.frame_window
                   (Event "https://store.example" Sample.frame_window
                      (Json (Sample.success "c9" VNull)))) p in
  callbacks p !! "c9" = None ∧ since (trace p) (trace q) = [].
Proof.
  cbn zeta.
  assert (callbacks Sample.connected !! "c9" = None) as Hreg
    by (vm_compute; reflexivity).
  split; [exact Hreg|].
  generalize Sample.connected, Hreg. clear Hreg. intros p Hreg.
  unfold exec.
  rewrite (handle_unregistered _ _ (Sample.success "c9" VNull)) by exact Hreg.
  change (strict_eq _ _ || _) with true. cbv iota.
  change (inherited _ && _) with false. cbv iota.
  apply drop_all.
Qed.

Lemma unregistered_response_is_ignored_witness :
  FS.handleMessageEvent Sample.frame_window
    (Event "https://store.example" Sample.frame_window
       (Json (Sample.success "c9" VNull)))
    Sample.connected
  = (Normal tt, Sample.connected).
Proof.
  pose proof
    (unregistered_response_is_ignored Sample.frame_window
       "https://store.example" (Sample.success "c9" VNull)
       Sample.connected) as T.
  cbv zeta in T. destruct T as (T & _).
  exact (T ltac:(vm_compute; reflexivity) eq_refl eq_refl).
Defined.

(** Against C9 as stated: a handler that throws is still registered after
    the listener has run on the response to its request. *)
Lemma throwing_handler_stays_registered :
  let p :=
    exec (Handle.getItem (VStr "theme") (Some (Callable 13)))
         Sample.connected in
  let event :=
    Event "https://store.example" Sample.frame_window
      (Json (Sample.success "c4ab" (VStr "dark"))) in
  source event = contentWindow (chan p)
  ∧ callbacks (exec (FS.handleMessageEvent Sample.frame_window event) p)
      !! ToString (VStr "c4ab")
    = Some (Completion (Callable 13)).
Proof. vm_compute. done. Qed.

(** The response coming twice, the handler that throws is called twice. *)
Example throwing_handler_is_called_again :
  let p :=
    exec (Handle.getItem (VStr "theme") (Some (Callable 13)))
         Sample.connected in
  let event :=
    Event "https://store.example" Sample.frame_window
      (Json (Sample.success "c4ab" (VStr "dark"))) in
  since (trace p) (trace (run [Receive event; Receive event] p))
  = [CallHandler 13 VNull (VStr "dark"); CallHandler 13 VNull (VStr "dark")].
Proof. vm_compute. done. Qed.

Lemma listener_forgets_reference_witness :
  let p :=
    exec (Handle.getItem (VStr "theme") (Some (Callable 2)))
         Sample.connected in
  let m := Msg.mk (VStr "frameStorageDone") (VStr "c4ab") VUndef VNull VUndef in
  callbacks p !! "c4ab" = Some (Completion (Callable 2))
  ∧ FS.handleMessageEvent Sample.frame_window
      (Event "https://store.example" Sample.frame_window (Json m)) p
    = (Normal tt,
       with_callbacks (delete "c4ab")
         (with_trace (λ t, t ++ [ConsoleError "Unknown action"]) p)).
Proof.
  cbn zeta. split; [vm_compute; reflexivity|].
  pose proof
    (listener_forgets_reference Sample.frame_window
       "https://store.example"
       (Msg.mk (VStr "frameStorageDone") (VStr "c4ab") VUndef VNull VUndef)
       (exec (Handle.getItem (VStr "theme") (Some (Callable 2)))
             Sample.connected))
    as T.
  cbv zeta in T. destruct T as (_ & _ & T & _).
  exact (T eq_refl eq_refl).
Defined.

(** ** The client half: calls, load and destroy as moves of the page *)

Section Moves.

Implicit Types (p q : page) (c : call) (w : window) (o : string)
  (i : input).

Lemma exec_reported {S} (c : js S unit) (s : S) :
  exec (reported c) s = exec c s.
Proof.
  unfold exec, reported, try_catch. by destruct (c s) as [[[]|e] s'].
Qed.

Lemma exec_forEach_cons {S A} (x : A) (l : list A) (f : A → js S unit)
    (s : S) :
  fst (f x s) = Normal tt →
  exec (forEach (x :: l) f) s = exec (forEach l f) (exec (f x) s).
Proof.
  unfold exec. cbn [forEach]. unfold bind.
  destruct (f x s) as [[[]|e] s']; by intros.
Qed.

Lemma reported_returns {S} (c : js S unit) (s : S) :
  fst (reported c s) = Normal tt.
Proof. unfold reported, try_catch. by destruct (c s) as [[[]|e] s']. Qed.

Lemma invoke_bound c p w o :
  bound_of c (chan p) = Some (w, o) →
  Handle.invoke c p = (Normal tt, sent w o c p).
Proof.
  intros Hb. rewrite <- direct_sent.
  destruct c; cbn [bound_of] in Hb; cbn [Handle.invoke direct];
    unfold Handle.getItem, Handle.setItem, Handle.clear, Handle.length,
      Handle.key; by rewrite bind_get, Hb.
Qed.

Lemma invoke_unbound c p :
  bound_of c (chan p) = None →
  Handle.invoke c p = (Normal tt, queued c p).
Proof.
  intros Hb.
  destruct c; cbn [bound_of] in Hb; cbn [Handle.invoke];
    unfold Handle.getItem, Handle.setItem, Handle.clear, Handle.length,
      Handle.key; by rewrite bind_get, Hb.
Qed.

Lemma invoke_moves c p : move p (exec (Handle.invoke c) p).
Proof.
  unfold exec. destruct (bound_of c (chan p)) as [[w o]|] eqn:Hb.
  - rewrite (invoke_bound _ _ w o) by done. by constructor.
  - rewrite invoke_unbound by done. by constructor.
Qed.

Lemma iframe_onload_moves p : rtc move p (exec FS.iframe_onload p).
Proof.
  unfold exec. rewrite iframe_onload_total. cbn [snd].
  destruct (srcSet (chan p)) eqn:Hs, (onloadDone (chan p)) eqn:Hd;
    cbn; try reflexivity.
  apply rtc_once. by constructor.
Qed.

Lemma invoke_callee_moves (f : FS.callee) (err val : jsval) p :
  rtc move p (exec (FS.invoke f err val) p).
Proof.
  unfold exec. rewrite invoke_result.
  destruct f as [[h|]|name|]; cbn [snd]; try reflexivity.
  - rewrite call_result. destruct h as [g|]; [|reflexivity].
    apply rtc_once. constructor.
  - pose proof (iframe_onload_moves p) as Hm.
    unfold exec in Hm. by rewrite iframe_onload_total in Hm.
  - by destruct (inherited_call_returns name).
Qed.

Lemma handle_moves w (event : MessageEvent) p :
  rtc move p (exec (FS.handleMessageEvent w event) p).
Proof.
  destruct event as [o tw d].
  destruct (decide (tw = w)) as [->|Hne]; last first.
  { unfold exec. by rewrite handle_other_source. }
  destruct d as [text| |m].
  { unfold exec. by rewrite handle_garbage. }
  { unfold exec. by rewrite handle_null. }
  unfold exec. rewrite handle_envelope. cbn zeta.
  set (ref := ToString (Msg.ref m)).
  set (f := FS.lookup_callback (callbacks p) ref).
  assert (∀ err val,
    rtc move p ((FS.invoke f err val ;;;
                 modify (with_callbacks (delete ref))) p).2) as Hinvoke.
  { intros err val. pose proof (invoke_callee_moves f err val p) as Hm.
    unfold exec in Hm. unfold bind.
    destruct (FS.invoke f err val p) as [[[]|e] q]; cbn in *; [|done].
    eapply rtc_r; [exact Hm|constructor]. }
  repeat case_match; try apply Hinvoke.
  cbn [snd]. eapply rtc_l; [apply move_unknown|].
  apply rtc_once. constructor.
Qed.

Lemma forEach_reported_moves {A} (l : list A) (f : A → js page unit) p :
  (∀ x q, rtc move q (exec (f x) q)) →
  rtc move p (exec (forEach l (λ x, reported (f x))) p).
Proof.
  intros Hf. revert p. induction l as [|x l IH]; intros p; [done|].
  rewrite exec_forEach_cons by apply reported_returns.
  rewrite exec_reported. etrans; [apply Hf|apply IH].
Qed.

Lemma dispatch_moves (event : MessageEvent) p :
  rtc move p (exec (dispatch event) p).
Proof.
  unfold dispatch, exec. rewrite bind_get.
  apply (forEach_reported_moves (listeners p)
           (λ w, FS.handleMessageEvent w event)).
  intros w q. apply handle_moves.
Qed.

(** Every input but [destroy] is a sequence of moves. *)
Lemma step_moves i p :
  is_destroy i = false → rtc move p (exec (step i) p).
Proof.
  destruct i as [c| | |event]; intros Hi; try done; cbn [step].
  - apply rtc_once, invoke_moves.
  - apply iframe_onload_moves.
  - apply dispatch_moves.
Qed.

(** [destroy] throws when the root is not under the body, before it has
    changed anything, and else returns. *)
Lemma destroy_result p :
  Handle.destroy p
  = match root (chan p) with
    | Some r =>
        if bool_decide (r ∈ body p) then (Normal tt, destroyed p)
        else (Throw NotFoundError, p)
    | None => (Normal tt, destroyed p)
    end.
Proof.
  unfold Handle.destroy. rewrite bind_get.
  destruct p as [cbs rnd cl n b ls t [r buf tw l bs bl be bc bk co cw ss od]].
  cbn [chan root]. destruct r as [r|].
  - unfold removeChild. cbv [bind get]. cbn [body].
    destruct (bool_decide (r ∈ b)); [|done].
    cbn. by destruct tw, l.
  - cbv [bind get ret]. cbn. by destruct tw, l.
Qed.

Lemma run_app (l1 l2 : list input) p :
  run (l1 ++ l2) p = run l2 (run l1 p).
Proof. apply foldl_app. Qed.

Lemma run_snoc (l : list input) i p :
  run (l ++ [i]) p = exec (step i) (run l p).
Proof. by rewrite run_app. Qed.

End Moves.

(** ** The buffer *)

Section Buffer.

Implicit Types (p q : page) (c : call) (cs : list call) (w : window)
  (o : string).

Lemma run_cons (i : input) (l : list input) p :
  run (i :: l) p = run l (exec (step i) p).
Proof. done. Qed.

Lemma waiting_unbound c (ch : channel) : waiting ch → bound_of c ch = None.
Proof. intros (?&?&?&?&?&_). by destruct c. Qed.

Lemma ready_bound c (ch : channel) :
  ready ch → bound_of c ch = Some (contentWindow ch, channelOrigin ch).
Proof. intros (?&?&?&?&?&_). by destruct c. Qed.

(** Calls made before the load are appended to the buffer, and that is
    all they do. *)
Lemma run_invoke_waiting cs p :
  waiting (chan p) →
  run (Invoke <$> cs) p
  = with_chan (λ ch, set_buffer (buffer ch ++ cs) ch) p.
Proof.
  revert p. induction cs as [|c cs IH]; intros p Hw.
  - destruct p as [? ? ? ? ? ? ? []]. cbn. unfold with_chan, set_buffer. cbn.
    by rewrite app_nil_r.
  - rewrite fmap_cons, run_cons. cbn [step]. unfold exec at 1.
    rewrite invoke_unbound by by apply waiting_unbound.
    cbn [snd]. rewrite IH by done.
    unfold queued, with_chan, set_buffer. cbn. by rewrite <- app_assoc.
Qed.

(** Calls made while the five functions are bound are made directly. *)
Lemma run_invoke_bound cs p w o :
  (∀ c, bound_of c (chan p) = Some (w, o)) →
  run (Invoke <$> cs) p = foldl (λ q c, sent w o c q) p cs.
Proof.
  revert p. induction cs as [|c cs IH]; intros p Hb; [done|].
  rewrite fmap_cons, run_cons. cbn [step foldl]. unfold exec at 1.
  rewrite (invoke_bound _ _ w o) by done. by apply IH.
Qed.

Lemma foldl_sent_trace w o cs p :
  trace (foldl (λ q c, sent w o c q) p cs)
  = trace p ++ envelopes w o (Math_random p) (draws p) cs.
Proof.
  revert p. induction cs as [|c cs IH]; intros p.
  - cbn. by rewrite app_nil_r.
  - cbn [foldl envelopes]. rewrite IH. cbn [sent trace draws Math_random].
    by rewrite <- !app_assoc.
Qed.

Lemma foldl_sent_fixed w o cs p :
  body (foldl (λ q c, sent w o c q) p cs) = body p
  ∧ listeners (foldl (λ q c, sent w o c q) p cs) = listeners p
  ∧ Math_random (foldl (λ q c, sent w o c q) p cs) = Math_random p
  ∧ draws (foldl (λ q c, sent w o c q) p cs) = draws p + List.length cs.
Proof.
  revert p. induction cs as [|c cs IH]; intros p; cbn [foldl List.length].
  - by rewrite Nat.add_0_r.
  - destruct (IH (sent w o c p)) as (-> & -> & -> & ->). cbn.
    repeat split. lia.
Qed.

Lemma envelopes_app w o random n cs1 cs2 :
  envelopes w o random n (cs1 ++ cs2)
  = envelopes w o random n cs1
    ++ envelopes w o random (n + List.length cs1) cs2.
Proof.
  revert n. induction cs1 as [|c cs1 IH]; intros n; cbn.
  - by rewrite Nat.add_0_r.
  - rewrite IH, <- !app_assoc. cbn.
    by replace (n + S (List.length cs1)) with (S n + List.length cs1) by lia.
Qed.

Lemma loaded_chan p :
  chan (loaded p)
  = let c := chan p in
    let b := Some (contentWindow c, channelOrigin c) in
    Channel (root c) [] (Some (contentWindow c)) (Some (contentWindow c))
            b b b b b (channelOrigin c) (contentWindow c) (srcSet c) true.
Proof. unfold loaded. cbn [chan with_chan]. by rewrite foldl_sent_chan. Qed.

Lemma loaded_ready p : ready (chan (loaded p)).
Proof. rewrite loaded_chan. by repeat split. Qed.

Lemma loaded_trace p :
  trace (loaded p)
  = trace p
    ++ envelopes (contentWindow (chan p)) (channelOrigin (chan p))
         (Math_random p) (draws p) (buffer (chan p)).
Proof. unfold loaded. cbn [trace with_chan]. by rewrite foldl_sent_trace. Qed.

Lemma loaded_world p :
  body (loaded p) = body p
  ∧ listeners (loaded p) = listeners p ++ [contentWindow (chan p)]
  ∧ Math_random (loaded p) = Math_random p
  ∧ draws (loaded p) = draws p + List.length (buffer (chan p)).
Proof.
  unfold loaded. cbn [body listeners Math_random draws with_chan].
  destruct (foldl_sent_fixed (contentWindow (chan p)) (channelOrigin (chan p))
              (buffer (chan p)) (opened (with_chan (set_onloadDone true) p)))
    as (-> & -> & -> & ->).
  done.
Qed.

(** Loading with more calls in the buffer is loading, then making those
    calls directly. *)
Lemma loaded_queued cs p :
  loaded (with_chan (λ ch, set_buffer (buffer ch ++ cs) ch) p)
  = foldl (λ q c,
             sent (contentWindow (chan p)) (channelOrigin (chan p)) c q)
          (loaded p) cs.
Proof.
  unfold loaded.
  rewrite foldl_sent_with_chan, <- foldl_app.
  cbn [chan with_chan set_buffer buffer contentWindow channelOrigin].
  change (opened (with_chan (set_onloadDone true)
                    (with_chan (λ ch, set_buffer (buffer ch ++ cs) ch) p)))
    with (with_chan (set_buffer (buffer (chan p) ++ cs))
            (opened (with_chan (set_onloadDone true) p))).
  by rewrite foldl_sent_with_chan.
Qed.

Lemma waiting_with_buffer (f : channel → list call) p :
  waiting (chan p) → waiting (chan (with_chan (λ ch, set_buffer (f ch) ch) p)).
Proof. done. Qed.

Lemma waiting_loads p :
  waiting (chan p) → exec FS.iframe_onload p = loaded p.
Proof.
  intros (_&_&_&_&_&Hs&Hd). unfold exec.
  by rewrite iframe_onload_total, Hs, Hd.
Qed.

End Buffer.

(** C4. Calls made before the frame has loaded are replayed by the load in
    the order they were made, each as the direct call it would have been on
    a loaded channel, and before any call made after the load: the page
    ends as if the frame had loaded first and all the calls had followed,
    and its trace gains the envelopes of the buffered calls, then those of
    the later ones, in order. *)
Theorem buffered_calls_replayed_in_order (cs later : list call) (p : page) :
  waiting (chan p) →
  let after := run ((Invoke <$> cs) ++ FrameLoaded :: (Invoke <$> later)) p in
  after = run (FrameLoaded :: (Invoke <$> cs ++ later)) p
  ∧ trace after
    = trace p
      ++ envelopes (contentWindow (chan p)) (channelOrigin (chan p))
           (Math_random p) (draws p) (buffer (chan p) ++ cs ++ later)
  ∧ buffer (chan after) = [].
Proof.
  intros Hw. cbn zeta.
  set (w := contentWindow (chan p)). set (o := channelOrigin (chan p)).
  assert (∀ q c, chan q = chan (loaded p) → bound_of c (chan q) = Some (w, o))
    as Hbound.
  { intros q c ->.
    rewrite (ready_bound _ _ (loaded_ready p)), loaded_chan. reflexivity. }
  assert (run ((Invoke <$> cs) ++ FrameLoaded :: (Invoke <$> later)) p
          = foldl (λ q c, sent w o c q) (loaded p) (cs ++ later)) as ->.
  { rewrite run_app, run_cons, (run_invoke_waiting cs p) by done.
    cbn [step].
    rewrite waiting_loads by by apply waiting_with_buffer.
    rewrite loaded_queued, foldl_app. fold w o.
    apply run_invoke_bound. intros c. apply Hbound.
    by rewrite foldl_sent_chan. }
  repeat split.
  - rewrite run_cons. cbn [step]. rewrite waiting_loads by done.
    symmetry. apply run_invoke_bound. intros c. by apply Hbound.
  - rewrite foldl_sent_trace, loaded_trace. fold w o.
    destruct (loaded_world p) as (_ & _ & -> & ->).
    by rewrite <- app_assoc, <- envelopes_app.
  - by rewrite foldl_sent_chan, loaded_chan.
Qed.

Lemma buffered_calls_replayed_in_order_witness :
  let cs := [Save (VStr "theme") (VStr "dark") (Some (Callable 1));
             Load (VStr "theme") (Some (Callable 2))] in
  let later := [Count (Some (Callable 3))] in
  let p := Sample.constructed in
  trace (run ((Invoke <$> cs) ++ FrameLoaded :: (Invoke <$> later)) p)
  = trace p
    ++ envelopes (contentWindow (chan p)) (channelOrigin (chan p))
         (Math_random p) (draws p) (buffer (chan p) ++ cs ++ later).
Proof.
  cbn zeta.
  assert (waiting (chan Sample.constructed)) as Hw
    by (vm_compute; repeat split).
  pose proof
    (buffered_calls_replayed_in_order
       [Save (VStr "theme") (VStr "dark") (Some (Callable 1));
        Load (VStr "theme") (Some (Callable 2))]
       [Count (Some (Callable 3))] Sample.constructed Hw) as T.
  cbv zeta in T. destruct T as (_ & T & _). exact T.
Defined.

(** ** What holds of the channel from its construction on *)

Section Invariants.

Implicit Types (p q : page) (c : call) (w : window) (o : string)
  (i : input).

(** *** While the channel is ready *)

Lemma serving_move p q :
  move p q → serving p → serving q ∧
  contentWindow (chan q) = contentWindow (chan p)
  ∧ channelOrigin (chan q) = channelOrigin (chan p).
Proof.
  intros Hm [Hr Hb]. destruct Hm as [w o c p _|c p Hu|p _ Hd| | |]; try done.
  - by rewrite (ready_bound c _ Hr) in Hu.
  - destruct Hr as (_&_&_&_&_&Hr). by rewrite Hr in Hd.
Qed.

Lemma serving_moves p q :
  rtc move p q → serving p → serving q ∧
  contentWindow (chan q) = contentWindow (chan p)
  ∧ channelOrigin (chan q) = channelOrigin (chan p).
Proof.
  induction 1 as [p|p q r Hpq _ IH]; intros Hc; [done|].
  destruct (serving_move _ _ Hpq Hc) as (Hq & <- & <-). by apply IH.
Qed.

Lemma serving_run (inputs : list input) p :
  Forall (λ i, is_destroy i = false) inputs → serving p →
  serving (run inputs p)
  ∧ contentWindow (chan (run inputs p)) = contentWindow (chan p)
  ∧ channelOrigin (chan (run inputs p)) = channelOrigin (chan p).
Proof.
  intros Hin. revert p. induction Hin as [|i inputs Hi _ IH]; intros p Hc;
    [done|].
  rewrite run_cons.
  destruct (serving_moves _ _ (step_moves i p Hi) Hc) as (Hq & <- & <-).
  by apply IH.
Qed.

(** *** The root, the frame window and the listener *)

Lemma attached_move p q : move p q → attached p → attached q.
Proof.
  intros Hm (Hroot & Htw & Hls).
  destruct Hm as [w o c p _|c p _|p _ _| | |]; try done.
  destruct (loaded_world p) as (Hb & Hl & _).
  unfold attached. rewrite loaded_chan, Hb, Hl. cbn. repeat split; [done|].
  intros w [= <-]. apply elem_of_app. right. by left.
Qed.

Lemma attached_moves p q : rtc move p q → attached p → attached q.
Proof. induction 1; eauto using attached_move. Qed.

Lemma attached_destroy p :
  attached p →
  Handle.destroy p = (Normal tt, destroyed p) ∧ attached (destroyed p).
Proof.
  intros (Hroot & Htw & Hls). split.
  - rewrite destroy_result. destruct (root (chan p)) as [r|]; [|done].
    by rewrite bool_decide_eq_true_2 by by apply Hroot.
  - by repeat split.
Qed.

Lemma attached_step i p : attached p → attached (exec (step i) p).
Proof.
  intros Ha. destruct (is_destroy i) eqn:Hi.
  - destruct i; try done. cbn [step]. unfold exec.
    by destruct (attached_destroy p Ha) as [-> ?].
  - eapply attached_moves; [by apply step_moves|done].
Qed.

Lemma attached_run (inputs : list input) p :
  attached p → attached (run inputs p).
Proof.
  revert p. induction inputs as [|i inputs IH]; intros p Ha; [done|].
  rewrite run_cons. by apply IH, attached_step.
Qed.

(** The constructor, spelled out. *)
Lemma FrameStorage_result (protocol host url : string) (frame : window) p :
  FS.FrameStorage protocol host url frame p
  = (Normal tt,
     Page (<[FS.guid (Math_random p (3 + draws p)) := IframeOnload]>
             (callbacks p))
          (Math_random p) (client p) (4 + draws p)
          (body p ++ ["framestorage-" +:+ FS.guid (Math_random p (draws p))])
          (listeners p) (trace p)
          (Channel
             (Some ("framestorage-" +:+ FS.guid (Math_random p (draws p))))
             [] None None None None None None None
             (default (protocol +:+ "//" +:+ host) (Re.group1 url))
             frame true false)).
Proof. done. Qed.

Lemma attached_constructed (protocol host url : string) (frame : window) p :
  attached (exec (FS.FrameStorage protocol host url frame) p).
Proof.
  unfold exec. rewrite FrameStorage_result. repeat split; try done.
  intros r [= <-]. cbn. apply elem_of_app. right. by left.
Qed.

(** *** The origin the envelopes are addressed to *)

Lemma envelopes_addressed w o random n (cs : list call) :
  Forall (addressed_to o) (envelopes w o random n cs).
Proof.
  revert n. induction cs as [|c cs IH]; intros n; cbn; [done|].
  apply Forall_app. split.
  - by destruct c as [? []|? ? []|[]|[]|? []]; repeat constructor.
  - constructor; [done|apply IH].
Qed.

Lemma pinned_move o before p q :
  move p q → pinned o before p → pinned o before q.
Proof.
  intros Hm (Ho & Hb & added & Ht & Ha).
  destruct Hm as [w o' c p Hc|c p _|p _ _|h err val p|p|ref p].
  - apply Hb in Hc as ->. repeat split; [done..|].
    exists (added ++ warning c
              ++ [PostMessage w
                    (JSON_stringify
                       (request (FS.guid (Math_random p (draws p))) c)) o]).
    cbn [trace sent]. rewrite Ht, <- app_assoc. split; [done|].
    apply Forall_app. split; [done|].
    apply (envelopes_addressed w o (Math_random p) (draws p) [c]).
  - repeat split; [done| |by exists added].
    intros c' w o' Hc'. apply (Hb c' w o'). by destruct c'.
  - split; [by rewrite loaded_chan|]. split.
    + intros c w o'. rewrite loaded_chan. destruct c; cbn; congruence.
    + exists (added ++ envelopes (contentWindow (chan p)) (channelOrigin (chan p))
                        (Math_random p) (draws p) (buffer (chan p))).
      rewrite loaded_trace, Ht, <- app_assoc. split; [done|].
      apply Forall_app. split; [done|]. rewrite Ho.
      apply envelopes_addressed.
  - repeat split; [done..|].
    exists (added ++ [CallHandler h err val]). cbn. rewrite Ht, <- app_assoc.
    split; [done|]. apply Forall_app. by repeat constructor.
  - repeat split; [done..|].
    exists (added ++ [ConsoleError "Unknown action"]). cbn.
    rewrite Ht, <- app_assoc.
    split; [done|]. apply Forall_app. by repeat constructor.
  - repeat split; [done..|]. by exists added.
Qed.

Lemma pinned_moves o before p q :
  rtc move p q → pinned o before p → pinned o before q.
Proof. induction 1; eauto using pinned_move. Qed.

Lemma pinned_step o before i p :
  pinned o before p → pinned o before (exec (step i) p).
Proof.
  intros Hp. destruct (is_destroy i) eqn:Hi.
  - destruct i; try done. cbn [step]. unfold exec. rewrite destroy_result.
    destruct Hp as (Ho & Hb & Ht).
    assert (pinned o before (destroyed p)) as Hd.
    { repeat split; [done| |done].
      intros c w o'. specialize (Hb c w o'). by destruct c. }
    by repeat case_match.
  - eapply pinned_moves; [by apply step_moves|done].
Qed.

Lemma pinned_run o before (inputs : list input) p :
  pinned o before p → pinned o before (run inputs p).
Proof.
  revert p. induction inputs as [|i inputs IH]; intros p Hp; [done|].
  rewrite run_cons. by apply IH, pinned_step.
Qed.

End Invariants.

(** C7. Once the frame's load has been handled, and as long as [destroy]
    is not called, the buffer is empty and stays empty: whatever calls and
    messages follow, a call of any of the five operations is made directly,
    posting its envelope to the frame window at the channel's origin, and
    leaves the buffer empty. *)
Theorem queue_is_bypassed_after_load (inputs : list input) (c : call)
    (p : page) :
  waiting (chan p) →
  Forall (λ i, is_destroy i = false) inputs →
  let q := run (FrameLoaded :: inputs) p in
  let w := contentWindow (chan p) in
  let o := channelOrigin (chan p) in
  buffer (chan q) = []
  ∧ Handle.invoke c q = (Normal tt, sent w o c q)
  ∧ buffer (chan (sent w o c q)) = []
  ∧ trace (sent w o c q)
    = trace q ++ warning c
      ++ [PostMessage w
            (JSON_stringify (request (FS.guid (Math_random q (draws q))) c))
            o].
Proof.
  intros Hw Hin. cbn zeta. rewrite run_cons. cbn [step].
  rewrite waiting_loads by done.
  assert (serving (loaded p)) as Hs.
  { split; [apply loaded_ready|by rewrite loaded_chan]. }
  destruct (serving_run inputs (loaded p) Hin Hs) as ([Hr Hb] & Hcw & Hco).
  rewrite loaded_chan in Hcw, Hco. cbn in Hcw, Hco.
  repeat split; [done| |done].
  apply invoke_bound. by rewrite (ready_bound c _ Hr), Hcw, Hco.
Qed.

Lemma queue_is_bypassed_after_load_witness :
  let p := Sample.constructed in
  let inputs :=
    [Invoke (Save (VStr "theme") (VStr "dark") None);
     Receive (Event "https://store.example" Sample.frame_window
                (Json (Sample.success "c4ab" VNull)))] in
  let q := run (FrameLoaded :: inputs) p in
  buffer (chan q) = []
  ∧ Handle.invoke (Load (VStr "theme") (Some (Callable 2))) q
    = (Normal tt,
       sent (contentWindow (chan p)) (channelOrigin (chan p))
            (Load (VStr "theme") (Some (Callable 2))) q).
Proof.
  cbn zeta.
  assert (waiting (chan Sample.constructed)) as Hw
    by (vm_compute; repeat split).
  pose proof
    (queue_is_bypassed_after_load
       [Invoke (Save (VStr "theme") (VStr "dark") None);
        Receive (Event "https://store.example" Sample.frame_window
                   (Json (Sample.success "c4ab" VNull)))]
       (Load (VStr "theme") (Some (Callable 2))) Sample.constructed Hw
       ltac:(repeat constructor)) as T.
  cbv zeta in T. destruct T as (T1 & T2 & _). split; [exact T1|exact T2].
Defined.

(** After [destroy] the channel is no longer in that state: [setItem] and
    [getItem] find their bound functions gone and buffer again, while
    [clear], [length] and [key] still post. *)
Example destroy_rebuffers :
  let q := run [FrameLoaded; Destroy;
                Invoke (Save (VStr "theme") (VStr "dark") None);
                Invoke (Count None)] Sample.constructed in
  buffer (chan q) = [Save (VStr "theme") (VStr "dark") None]
  ∧ since (trace Sample.constructed) (trace q)
    = [ConsoleWarn "FrameStorage.length: Missing callback function";
       PostMessage Sample.frame_window
         (Json (Msg.mk (VStr "length") (VStr "c4ab") VUndef VUndef VUndef))
         "https://store.example"].
Proof. vm_compute. done. Qed.

(** The scenario of the description: [setItem("theme", "dark", cb1)] then
    [getItem("theme", cb2)] before the frame has loaded; after the load and
    the exchange with the frame, [cb1(null, null)] is called, then
    [cb2(null, "dark")]. *)
Example theme_scenario :
  let p := run [Invoke (Save (VStr "theme") (VStr "dark") (Some (Callable 1)));
                Invoke (Load (VStr "theme") (Some (Callable 2)));
                FrameLoaded] Sample.constructed in
  let requests :=
    as_events Sample.browser Sample.page_window Sample.frame_window
      (since (trace Sample.constructed) (trace p)) in
  let f :=
    exec (serve (H := Sample.localStorage) None requests) Sample.frame in
  let responses :=
    as_events Sample.browser Sample.frame_window Sample.page_window
      (Server.output f) in
  since (trace p) (trace (run (Receive <$> responses) p))
  = [CallHandler 1 VNull VNull; CallHandler 2 VNull (VStr "dark")].
Proof. vm_compute. done. Qed.

(** C8. [destroy] resets the frame window, the listener and the bound
    [save] and [load], and leaves the bound [empty], [count] and [key] as
    the load set them, bound to the frame window. On a channel whose frame
    has loaded, [destroy] returns and the channel holds no frame window any
    more; yet a call of [clear], [length] or [key] that follows registers
    its handler and posts its request to the frame window, at the channel's
    origin, while a call of [getItem] or [setItem] is buffered. *)
Theorem destroyed_channel_still_posts (protocol host url : string)
    (frame : window) (inputs : list input) (c : call) (p0 : page) :
  let p := run inputs (exec (FS.FrameStorage protocol host url frame) p0) in
  let q := destroyed p in
  let w := contentWindow (chan p) in
  let o := channelOrigin (chan p) in
  ready (chan p) →
  Handle.destroy p = (Normal tt, q)
  ∧ targetWindow (chan q) = None
  ∧ boundSave (chan q) = None ∧ boundLoad (chan q) = None
  ∧ boundEmpty (chan q) = Some (w, o) ∧ boundCount (chan q) = Some (w, o)
  ∧ boundKey (chan q) = Some (w, o)
  ∧ Handle.invoke c q
    = (Normal tt,
       match c with
       | Load _ _ | Save _ _ _ => queued c q
       | Empty _ | Count _ | Key _ _ => sent w o c q
       end)
  ∧ trace (sent w o c q)
    = trace q ++ warning c
      ++ [PostMessage w
            (JSON_stringify (request (FS.guid (Math_random q (draws q))) c))
            o].
Proof.
  cbn zeta. set (p := run inputs _). intros (Hsave & Hload & He & Hc & Hk & _).
  assert (attached p) as Ha by apply attached_run, attached_constructed.
  destruct (attached_destroy p Ha) as [Hd _].
  do 7 (split; [done|]). split; [|done].
  destruct c; [by apply invoke_unbound|by apply invoke_unbound|..];
    by apply invoke_bound.
Qed.

Lemma destroyed_channel_still_posts_witness :
  let p := run [FrameLoaded]
               (exec (FS.FrameStorage "https:" "app.example"
                        "https://store.example/channel.html"
                        Sample.frame_window) Sample.blank) in
  let q := destroyed p in
  let c := Count (Some (Callable 3)) in
  Handle.destroy p = (Normal tt, q)
  ∧ targetWindow (chan q) = None
  ∧ Handle.invoke c q
    = (Normal tt,
       sent Sample.frame_window "https://store.example" c q).
Proof.
  cbn zeta.
  pose proof
    (destroyed_channel_still_posts "https:" "app.example"
       "https://store.example/channel.html" Sample.frame_window
       [FrameLoaded] (Count (Some (Callable 3))) Sample.blank
       ltac:(vm_compute; repeat split)) as T.
  cbv zeta in T. destruct T as (T1 & T2 & _ & _ & _ & _ & _ & T3 & _).
  split; [exact T1|]. split; [exact T2|exact T3].
Defined.

(** C10. When the address given to the constructor does not match
    [/^(https?:\/\/[a-z0-9-.:@]+)\/?/i], the channel's origin is the page's
    own, [location.protocol + '//' + location.host], and every message the
    channel posts from then on is addressed to it. *)
Theorem unmatched_address_falls_back (protocol host url : string)
    (frame : window) (inputs : list input) (p0 : page) :
  Re.group1 url = None →
  let here := protocol +:+ "//" +:+ host in
  let p := run inputs (exec (FS.FrameStorage protocol host url frame) p0) in
  channelOrigin (chan p) = here
  ∧ Forall (addressed_to here) (since (trace p0) (trace p)).
Proof.
  intros Hre. cbn zeta.
  set (here := protocol +:+ "//" +:+ host).
  assert (pinned here (trace p0)
            (exec (FS.FrameStorage protocol host url frame) p0)) as Hp.
  { unfold exec. rewrite FrameStorage_result, Hre. repeat split.
    - intros c w o'. by destruct c.
    - exists []. by rewrite app_nil_r. }
  destruct (pinned_run _ _ inputs _ Hp) as (Ho & _ & added & Ht & Ha).
  split; [done|]. unfold since. by rewrite Ht, drop_app_length.
Qed.

Lemma unmatched_address_falls_back_witness :
  let p := run [Invoke (Load (VStr "theme") (Some (Callable 2))); FrameLoaded;
                Invoke (Count None)]
               (exec (FS.FrameStorage "https:" "app.example" "/channel.html"
                        Sample.frame_window) Sample.blank) in
  channelOrigin (chan p) = "https://app.example"
  ∧ Forall (addressed_to "https://app.example")
           (since (trace Sample.blank) (trace p)).
Proof.
  cbn zeta.
  exact (unmatched_address_falls_back "https:" "app.example" "/channel.html"
           Sample.frame_window
           [Invoke (Load (VStr "theme") (Some (Callable 2))); FrameLoaded;
            Invoke (Count None)]
           Sample.blank eq_refl).
Defined.

(** The regular expression on some addresses. *)
Example group1_absolute :
  Re.group1 "https://store.example/channel.html" = Some "https://store.example".
Proof. reflexivity. Qed.

Example group1_keeps_case_and_port :
  Re.group1 "HTTP://Store.Example:8080" = Some "HTTP://Store.Example:8080".
Proof. reflexivity. Qed.

Example group1_stops_at_other_characters :
  Re.group1 "http://store_a.example/" = Some "http://store".
Proof. reflexivity. Qed.

Example group1_relative : Re.group1 "/channel.html" = None.
Proof. reflexivity. Qed.

Example group1_needs_a_host : Re.group1 "https:///channel.html" = None.
Proof. reflexivity. Qed.

Example group1_other_scheme : Re.group1 "ftp://store.example" = None.
Proof. reflexivity. Qed.

(** ** A call and the exchange that answers it *)

Section Exchange.

Context {S : Type} `{!Storage.Backend S}.

Implicit Types (b : browser) (c : call) (p : page) (w me : window)
  (o : string) (f : Server.frame S).

Lemma handled_is_quiet c (h : handler) :
  handler_of c = Some h → warning c = [].
Proof. by destruct c as [? []|? ? []|[]|[]|? []]. Qed.

Lemma request_is_served c (ref : string) :
  ∃ op : js S jsval, perform (read_back (request ref c)) = Some op.
Proof. destruct c; eexists; reflexivity. Qed.

Lemma exec_one {T A} (x : A) (g : A → js T unit) (s : T) :
  exec (forEach [x] g) s = exec (g x) s.
Proof.
  unfold exec. cbn [forEach]. unfold bind, ret.
  by destruct (g x s) as [[[]|e] s'].
Qed.

Lemma since_app (before added : list effect) :
  since before (before ++ added) = added.
Proof. unfold since. by rewrite drop_app_length. Qed.

(** A message posted to a window the browser delivers it to is the one
    event that window gets. *)
Lemma as_events_posted b (sender receiver : window) (payload : wire) o :
  delivers b sender receiver o = true →
  as_events b sender receiver [PostMessage receiver payload o]
  = [Event (document_origin b sender) sender payload].
Proof.
  intros Hd. cbn. by rewrite bool_decide_eq_true_2, Hd.
Qed.

Lemma as_events_app b (sender receiver : window) (l1 l2 : list effect) :
  as_events b sender receiver (l1 ++ l2)
  = as_events b sender receiver l1 ++ as_events b sender receiver l2.
Proof. unfold as_events. apply bind_app. Qed.

Lemma as_events_warning b (sender receiver : window) c :
  as_events b sender receiver (warning c) = [].
Proof. by destruct c as [? []|? ? []|[]|[]|? []]. Qed.

Lemma as_events_request b me w o c (ref : string) :
  delivers b me w o = true →
  as_events b me w
    (warning c ++ [PostMessage w (JSON_stringify (request ref c)) o])
  = [Event (document_origin b me) me (JSON_stringify (request ref c))].
Proof.
  intros Hd. by rewrite as_events_app, as_events_warning, as_events_posted.
Qed.

(** The exchange that follows a direct call: the request reaches the
    dispatcher, which runs the operation and answers. *)
Lemma call_is_answered b c (clientOrigin : option string) me p f
    (op : js S jsval) :
  serving p →
  delivers b me (contentWindow (chan p)) (channelOrigin (chan p)) = true →
  Server.mismatch (default "*" clientOrigin) (document_origin b me) = false →
  let w := contentWindow (chan p) in
  let o := channelOrigin (chan p) in
  let r := FS.guid (Math_random p (draws p)) in
  perform (read_back (request r c)) = Some op →
  let p1 := exec (Handle.invoke c) p in
  let requests := as_events b me w (since (trace p) (trace p1)) in
  let f1 := exec (forEach requests (Server.initChannel clientOrigin)) f in
  p1 = sent w o c p
  ∧ f1 = Server.Frame (op (Server.storage f)).2
           (Server.output f
              ++ [PostMessage me
                    (JSON_stringify
                       (reply (read_back (request r c))
                              (op (Server.storage f)).1))
                    (default "*" clientOrigin)]).
Proof.
  intros [Hr _] Hdeliv Horigin. cbn zeta. intros Hop.
  set (w := contentWindow (chan p)) in *.
  set (o := channelOrigin (chan p)) in *.
  set (r := FS.guid (Math_random p (draws p))) in *.
  assert (exec (Handle.invoke c) p = sent w o c p) as ->.
  { unfold exec. by rewrite (invoke_bound c p w o) by by apply ready_bound. }
  split; [done|].
  assert (since (trace p) (trace (sent w o c p))
          = warning c ++ [PostMessage w (JSON_stringify (request r c)) o])
    as -> by apply since_app.
  rewrite as_events_request by done.
  rewrite exec_one. unfold exec, Server.initChannel.
  rewrite listener_accepts by done.
  by rewrite (process_performs _ _ (read_back (request r c)) op).
Qed.

End Exchange.

(** ** A value stored, then read *)

Section RoundTrip.

Variable of_string : string → N.

#[local] Abbreviation localStorage := (Storage.localStorage of_string).

Implicit Types (a : Storage.area) (k v : jsval) (p : page).

Lemma find_put (key value : string) (l : list (string * string)) :
  Storage.find key (Storage.put key value l) = Some value.
Proof.
  induction l as [|[k' v'] l IH]; cbn.
  - by rewrite decide_True.
  - destruct (decide (key = k')) as [->|Hne]; cbn.
    + by rewrite decide_True.
    + by rewrite decide_False.
Qed.

Lemma setItem_stores k v a :
  Storage.blocked a = false →
  (Storage.used (Storage.put (ToString k) (ToString v) (Storage.items a))
   ≤ Storage.quota a)%nat →
  Storage.setItem (Backend := localStorage) k v a
  = (Normal tt,
     Storage.Area (Storage.put (ToString k) (ToString v) (Storage.items a))
                  (Storage.quota a) false).
Proof.
  intros Hb Hq. destruct a as [items quota blocked]. cbn in *. subst.
  cbv [bind Storage.access get ret modify]. cbn.
  by rewrite decide_True.
Qed.

Lemma getItem_reads k a :
  Storage.blocked a = false →
  Storage.getItem (Backend := localStorage) k a
  = (Normal (Storage.of_option
               (Storage.find (ToString k) (Storage.items a))), a).
Proof.
  intros Hb. destruct a as [items quota blocked]. cbn in *. by subst.
Qed.

(** A response under an unregistered reference that [makeGuid] made is
    handled by returning, the page unchanged. *)
Lemma handle_unregistered_guid w o (digits : N * list N) (m : Msg.t) p :
  Msg.ref m = VStr (FS.guid digits) →
  Msg.action m = VStr "frameStorageSuccess"
  ∨ Msg.action m = VStr "frameStorageError" →
  callbacks p !! FS.guid digits = None →
  FS.handleMessageEvent w (Event o w (Json m)) p = (Normal tt, p).
Proof.
  intros Href Hact Hreg.
  rewrite handle_unregistered by by rewrite Href.
  rewrite Href. cbn [ToString]. rewrite guid_not_inherited.
  by destruct Hact as [-> | ->].
Qed.

(** What the storage makes of a value that came in an envelope. *)
Lemma stored_string v :
  ToString (jsonify v)
  = match v with
    | VNum NaN | VNum (Infinity _) => "null"
    | _ => ToString v
    end.
Proof.
  destruct v as [| | |[|?|negative digits exponent]|]; try reflexivity.
  cbn. by destruct negative, (digits =? 0)%N.
Qed.

(** C1, as the code has it. On a ready channel whose origin lets the
    browser deliver to the frame, [setItem(k, v)] followed by
    [getItem(k, cb)], the dispatcher accepting the page's origin and
    answering at an origin the browser delivers to the page, and the
    storage taking the value, ends with one call [cb(null, s)] where [s] is
    the string [localStorage] made of what the envelope carried of [v]: [v]
    itself when [v] is a string, [null] for [NaN] and the infinities, and
    [String(v)] for the other values. The two references drawn are
    supposed distinct, and the first one not to be pending already. *)
Theorem stored_value_is_read_back_as_string (b : browser) k v
    (cb : function) (clientOrigin : option string) (me : window) p
    (f : Server.frame Storage.area) :
  let w := contentWindow (chan p) in
  let o := channelOrigin (chan p) in
  let r1 := FS.guid (Math_random p (draws p)) in
  let r2 := FS.guid (Math_random p (S (draws p))) in
  let key := ToString (jsonify k) in
  let stored := ToString (jsonify v) in
  serving p →
  r1 ≠ r2 →
  callbacks p !! r1 = None →
  delivers b me w o = true →
  Server.mismatch (default "*" clientOrigin) (document_origin b me) = false →
  delivers b w me (default "*" clientOrigin) = true →
  Storage.blocked (Server.storage f) = false →
  (Storage.used (Storage.put key stored (Storage.items (Server.storage f)))
   ≤ Storage.quota (Server.storage f))%nat →
  let p1 :=
    exec (Handle.setItem k v None ;;; Handle.getItem k (Some (Callable cb)))
         p in
  let requests := as_events b me w (since (trace p) (trace p1)) in
  let f1 :=
    exec (forEach requests
            (Server.initChannel (H := localStorage) clientOrigin)) f in
  let responses :=
    as_events b w me (since (Server.output f) (Server.output f1)) in
  let p2 := exec (forEach responses (FS.handleMessageEvent w)) p1 in
  Storage.find key (Storage.items (Server.storage f1)) = Some stored
  ∧ since (trace p1) (trace p2) = [CallHandler cb VNull (VStr stored)]
  ∧ stored = match v with
             | VNum NaN | VNum (Infinity _) => "null"
             | _ => ToString v
             end
  ∧ (∀ s, v = VStr s → stored = s).
Proof.
  cbn zeta.
  intros [Hr Hbuf] Hne Hreg Hto Horigin Hfrom Hblocked Hquota.
  set (w := contentWindow (chan p)) in *.
  set (o := channelOrigin (chan p)) in *.
  set (r1 := FS.guid (Math_random p (draws p))) in *.
  set (r2 := FS.guid (Math_random p (S (draws p)))) in *.
  set (key := ToString (jsonify k)) in *.
  set (stored := ToString (jsonify v)) in *.
  set (save := Save k v None). set (load := Load k (Some (Callable cb))).
  assert (exec (Handle.setItem k v None ;;;
                Handle.getItem k (Some (Callable cb))) p
          = sent w o load (sent w o save p)) as ->.
  { unfold exec.
    rewrite (bind_normal _ _ _ (sent w o save p) tt)
      by (apply (invoke_bound save); by rewrite (ready_bound save _ Hr)).
    change (Handle.getItem k (Some (Callable cb))) with (Handle.invoke load).
    rewrite (invoke_bound load _ w o); [done|].
    by rewrite sent_chan, (ready_bound load _ Hr). }
  set (m1 := read_back (request r1 save)).
  set (m2 := read_back (request r2 load)).
  assert (since (trace p) (trace (sent w o load (sent w o save p)))
          = [PostMessage w (Json m1) o; PostMessage w (Json m2) o]) as ->.
  { unfold since. cbn [trace sent warning save load handler_of app].
    rewrite <- app_assoc. by rewrite drop_app_length. }
  assert (as_events b me w
            [PostMessage w (Json m1) o; PostMessage w (Json m2) o]
          = [Event (document_origin b me) me (Json m1);
             Event (document_origin b me) me (Json m2)]) as ->.
  { change [PostMessage w (Json m1) o; PostMessage w (Json m2) o]
      with ([PostMessage w (Json m1) o] ++ [PostMessage w (Json m2) o]).
    rewrite as_events_app. by rewrite !as_events_posted. }
  set (ev1 := Event (document_origin b me) me (Json m1)).
  set (ev2 := Event (document_origin b me) me (Json m2)).
  set (a1 := Storage.Area
               (Storage.put key stored (Storage.items (Server.storage f)))
               (Storage.quota (Server.storage f)) false).
  set (co := default "*" clientOrigin) in *.
  set (ans1 := Msg.mk (VStr "frameStorageSuccess") (VStr r1) (jsonify k)
                 VNull VUndef).
  set (ans2 := Msg.mk (VStr "frameStorageSuccess") (VStr r2) (jsonify k)
                 (VStr stored) VUndef).
  assert (Server.initChannel (H := localStorage) clientOrigin ev1 f
          = (Normal tt,
             Server.Frame a1
               (Server.output f ++ [PostMessage me (Json ans1) co]))) as H1.
  { unfold Server.initChannel. rewrite listener_accepts by done.
    rewrite (process_performs co ev1 m1
               (Storage.setItem (Backend := localStorage)
                  (jsonify k) (jsonify v) ;;; ret VNull))
      by done.
    rewrite (bind_normal _ _ _ a1 tt) by by apply setItem_stores.
    unfold ret, JSON_stringify, m1, ans1, read_back.
    cbn [fst snd reply Msg.action Msg.ref Msg.key Msg.value Msg.message
         request save jsonify].
    by rewrite jsonify_idempotent. }
  assert (Server.initChannel (H := localStorage) clientOrigin ev2
            (Server.Frame a1
               (Server.output f ++ [PostMessage me (Json ans1) co]))
          = (Normal tt,
             Server.Frame a1
               ((Server.output f ++ [PostMessage me (Json ans1) co])
                  ++ [PostMessage me (Json ans2) co]))) as H2.
  { unfold Server.initChannel. rewrite listener_accepts by done.
    rewrite (process_performs co ev2 m2
               (Storage.getItem (Backend := localStorage) (jsonify k)))
      by done.
    cbn [Server.storage Server.output].
    rewrite getItem_reads by done. cbn [fst snd Storage.items a1].
    fold key. rewrite find_put.
    unfold JSON_stringify, m2, ans2, read_back.
    cbn [reply Storage.of_option Msg.action Msg.ref Msg.key Msg.value
         Msg.message request load jsonify].
    by rewrite jsonify_idempotent. }
  assert (exec (forEach [ev1; ev2]
                  (Server.initChannel (H := localStorage) clientOrigin)) f
          = Server.Frame a1
              ((Server.output f ++ [PostMessage me (Json ans1) co])
                 ++ [PostMessage me (Json ans2) co])) as ->.
  { unfold exec. cbn [forEach].
    rewrite (bind_normal _ _ _ _ _ H1), (bind_normal _ _ _ _ _ H2). done. }
  cbn [Server.storage Server.output Storage.items a1].
  split; [apply find_put|].
  split; [|split; [apply stored_string|by intros s ->]].
  assert (since (Server.output f)
            ((Server.output f ++ [PostMessage me (Json ans1) co])
               ++ [PostMessage me (Json ans2) co])
          = [PostMessage me (Json ans1) co] ++ [PostMessage me (Json ans2) co])
    as ->.
  { unfold since. rewrite <- app_assoc. by rewrite drop_app_length. }
  rewrite as_events_app, !as_events_posted by done.
  cbn [app].
  set (p1 := sent w o load (sent w o save p)).
  assert (callbacks p1 = <[r2 := Completion (Callable cb)]> (callbacks p))
    as Hcb by done.
  assert (FS.handleMessageEvent w (Event (document_origin b w) w (Json ans1))
            p1
          = (Normal tt, p1)) as Ha1.
  { apply (handle_unregistered_guid w _ (Math_random p (draws p)));
      [done|by left|].
    rewrite Hcb. by rewrite lookup_insert_ne. }
  assert (trace (FS.handleMessageEvent w
                   (Event (document_origin b w) w (Json ans2)) p1).2
          = trace p1 ++ [CallHandler cb VNull (VStr stored)]) as Ha2.
  { rewrite (handle_resolves w _ ans2 (Callable cb) VNull (VStr stored));
      [|rewrite Hcb; apply lookup_insert_eq|by left].
    unfold resolved.
    by destruct (client p1 cb VNull (VStr stored) (trace p1)). }
  unfold exec. cbn [forEach].
  rewrite (bind_normal _ _ _ _ _ Ha1).
  pose proof (exec_one (Event (document_origin b w) w (Json ans2))
                (FS.handleMessageEvent w) p1) as Hone.
  unfold exec in Hone. cbn [forEach] in Hone.
  rewrite Hone, Ha2. apply since_app.
Qed.

End RoundTrip.

(** Against C1 as stated: a number stored comes back as a string. *)
Lemma number_is_read_back_as_string :
  let p := Sample.connected in
  let w := contentWindow (chan p) in
  let p1 := exec (Handle.setItem (VStr "count") (VNum (of_nat 5)) None ;;;
                  Handle.getItem (VStr "count") (Some (Callable 2))) p in
  let requests :=
    as_events Sample.browser Sample.page_window w
      (since (trace p) (trace p1)) in
  let f1 :=
    exec (forEach requests (Server.initChannel (H := Sample.localStorage) None))
         Sample.frame in
  let responses :=
    as_events Sample.browser w Sample.page_window
      (since (Server.output Sample.frame) (Server.output f1)) in
  let p2 := exec (forEach responses (FS.handleMessageEvent w)) p1 in
  since (trace p1) (trace p2) = [CallHandler 2 VNull (VStr "5")]
  ∧ VStr "5" ≠ VNum (of_nat 5).
Proof. vm_compute. by split. Qed.

(** What comes back for some values that are not strings. *)
Example values_read_back :
  (λ v, ToString (jsonify v))
    <$> [VNum NaN; VNum (Infinity false); VNum (Decimal true 0 0);
         VNum (Decimal false 15 (-1)); VNum (Decimal false 1 21);
         VNull; VUndef; VBool true]
  = ["null"; "null"; "0"; "1.5"; "1e+21"; "null"; "undefined"; "true"].
Proof. reflexivity. Qed.

Lemma stored_value_is_read_back_as_string_witness :
  let p := Sample.connected in
  let w := contentWindow (chan p) in
  let p1 := exec (Handle.setItem (VStr "theme") (VStr "dark") None ;;;
                  Handle.getItem (VStr "theme") (Some (Callable 2))) p in
  let requests :=
    as_events Sample.browser Sample.page_window w
      (since (trace p) (trace p1)) in
  let f1 :=
    exec (forEach requests
            (Server.initChannel (H := Storage.localStorage (λ _, 0%N))
               (Some "https://app.example")))
         Sample.frame in
  let responses :=
    as_events Sample.browser w Sample.page_window
      (since (Server.output Sample.frame) (Server.output f1)) in
  let p2 := exec (forEach responses (FS.handleMessageEvent w)) p1 in
  since (trace p1) (trace p2) = [CallHandler 2 VNull (VStr "dark")].
Proof.
  cbn zeta.
  pose proof
    (stored_value_is_read_back_as_string (λ _, 0%N) Sample.browser
       (VStr "theme") (VStr "dark") 2 (Some "https://app.example")
       Sample.page_window Sample.connected Sample.frame
       ltac:(vm_compute; repeat split)
       ltac:(vm_compute; discriminate)
       ltac:(vm_compute; reflexivity)
       ltac:(vm_compute; reflexivity)
       eq_refl
       ltac:(vm_compute; reflexivity)
       eq_refl
       ltac:(vm_compute; lia)) as T.
  cbv zeta in T. destruct T as (_ & T & _). exact T.
Defined.

(** * Further properties of the code *)

(** ** Identifiers *)

Lemma hex_char_is_hex (d : N) : hex_digit (FS.hex_char d) = true.
Proof. unfold FS.hex_char. by repeat case_match. Qed.

Lemma hex_string_is_hex (ds : list N) :
  all_chars hex_digit (FS.hex_string ds) = true.
Proof.
  induction ds as [|d ds IH]; [done|].
  cbn [FS.hex_string foldr all_chars]. fold (FS.hex_string ds).
  by rewrite hex_char_is_hex, IH.
Qed.

(** X1. [makeGuid] takes one draw and returns the letter [c] followed by
    one or more characters of [0-9a-f]; such an identifier is never the
    name of a member of [Object.prototype], so that looking it up in the
    registry finds a registered handler or nothing. *)
Theorem makeGuid_format (p : page) :
  ∃ t, FS.makeGuid p = (Normal (String "c" t), with_draws S p)
       ∧ t ≠ ""
       ∧ all_chars hex_digit t = true
       ∧ inherited (String "c" t) = false.
Proof.
  exists (FS.hex_string ((Math_random p (draws p)).1
                         :: (Math_random p (draws p)).2)).
  repeat split.
  - done.
  - apply hex_string_is_hex.
  - apply (guid_not_inherited (Math_random p (draws p))).
Qed.

(** ** The address of the frame *)

Section Address.

Implicit Types (s m r lit g : string) (f : ascii → bool).

Lemma append_assoc s1 s2 s3 : (s1 +:+ s2) +:+ s3 = s1 +:+ s2 +:+ s3.
Proof.
  induction s1 as [|c s1 IH]; [reflexivity|].
  change (String c ((s1 +:+ s2) +:+ s3) = String c (s1 +:+ s2 +:+ s3)).
  by rewrite IH.
Qed.

(** A literal matches a head of the text, and would match the same head
    before any other tail. *)
Lemma literal_matches lit s m r :
  Re.literal lit s = Some (m, r) →
  s = m +:+ r ∧ ∀ x, Re.literal lit (m +:+ x) = Some (m, x).
Proof.
  revert s m r. induction lit as [|a lit IH]; intros s m r; cbn.
  - by intros [= <- <-].
  - destruct s as [|b s]; [done|].
    destruct (Re.eq_ci a b) eqn:Hab; [|done].
    destruct (Re.literal lit s) as [[m' r']|] eqn:Hlit; [|done].
    intros [= <- <-]. destruct (IH _ _ _ Hlit) as [-> Hx].
    split; [done|]. intros x.
    change (String b m' +:+ x) with (String b (m' +:+ x)).
    cbn [Re.literal]. by rewrite Hab, Hx.
Qed.

(** The run taken is the longest: it is made of characters of the class,
    what follows does not start with one, and it is taken whole again. *)
Lemma many_longest f s m r :
  Re.many f s = (m, r) →
  s = m +:+ r
  ∧ all_chars f m = true
  ∧ (∀ c r', r = String c r' → f c = false)
  ∧ Re.many f m = (m, "").
Proof.
  revert m r. induction s as [|c s IH]; intros m r; cbn.
  - by intros [= <- <-].
  - destruct (f c) eqn:Hc.
    + destruct (Re.many f s) as [m' r'] eqn:Hm. intros [= <- <-].
      destruct (IH _ _ eq_refl) as (-> & Hall & Hnext & Hagain).
      repeat split; cbn; [by rewrite Hc|done|by rewrite Hc, Hagain].
    + intros [= <- <-]. repeat split. by intros c' r' [= <- <-].
Qed.

(** A character below the letters is matched by itself only. *)
Lemma eq_ci_below_letters (x y : ascii) :
  (Re.code x < 65)%N → Re.eq_ci x y = true → y = x.
Proof.
  intros Hx. unfold Re.eq_ci, Re.fold_case, Re.code in *.
  rewrite bool_decide_eq_true.
  destruct (65 <=? N_of_ascii x)%N eqn:Hlow; [apply N.leb_le in Hlow; lia|].
  cbn [andb].
  destruct ((65 <=? N_of_ascii y) && (N_of_ascii y <=? 90))%N eqn:Hup;
    [|done].
  apply andb_prop in Hup as [Hup1 Hup2].
  apply N.leb_le in Hup1, Hup2.
  intros ->. rewrite N_ascii_embedding in Hx; lia.
Qed.

Lemma colon_slash_slash s sep r :
  Re.literal "://" s = Some (sep, r) → sep = "://".
Proof.
  destruct s as [|a [|b [|c s]]]; cbn; repeat case_match; try done.
  intros [= <- <-].
  repeat match goal with
         | H : Re.eq_ci _ _ = true |- _ =>
             apply eq_ci_below_letters in H; [subst|by vm_compute]
         end.
  by simplify_eq.
Qed.

Lemma authority_matches s a :
  Re.authority s = Some a →
  ∃ h rest,
    a = "://" +:+ h ∧ h ≠ "" ∧ all_chars Re.host_char h = true
    ∧ s = a +:+ rest
    ∧ (∀ c r', rest = String c r' → Re.host_char c = false)
    ∧ Re.authority a = Some a.
Proof.
  unfold Re.authority at 1.
  destruct (Re.literal "://" s) as [[sep r]|] eqn:Hlit; [|done].
  pose proof (colon_slash_slash _ _ _ Hlit) as ->.
  destruct (literal_matches _ _ _ _ Hlit) as [-> _].
  destruct (Re.many Re.host_char r) as [h rest] eqn:Hmany.
  destruct (many_longest _ _ _ _ Hmany) as (-> & Hall & Hnext & Hagain).
  destruct h as [|c h]; [done|]. intros [= <-].
  exists (String c h), rest. repeat split; try done.
  destruct (literal_matches _ _ _ _ Hlit) as [_ Hsep].
  unfold Re.authority. by rewrite Hsep, Hagain.
Qed.

(** X2. When the regular expression of the constructor matches an
    address, what it captures is a head of the address, it is the longest
    one (what follows does not start with a character of the class), and
    matching the capture again gives the capture itself. *)
Theorem captured_origin_is_longest_head s g :
  Re.group1 s = Some g →
  ∃ rest, s = g +:+ rest
          ∧ (∀ c r', rest = String c r' → Re.host_char c = false)
          ∧ Re.group1 g = Some g.
Proof.
  unfold Re.group1 at 1.
  destruct (Re.literal "http" s) as [[http r]|] eqn:Hhttp; [|done].
  destruct (literal_matches _ _ _ _ Hhttp) as [-> Hhttp'].
  assert (∀ a, Re.authority r = Some a →
    ∃ rest, http +:+ r = (http +:+ a) +:+ rest
            ∧ (∀ c r', rest = String c r' → Re.host_char c = false)
            ∧ Re.group1 (http +:+ a) = Some (http +:+ a)) as Hwithout.
  { intros a Ha.
    destruct (authority_matches _ _ Ha) as (h & rest & -> & Hh & _ & -> & Hn & Hagain).
    exists rest. repeat split; [by rewrite !append_assoc|done|].
    unfold Re.group1. rewrite Hhttp'.
    change (Re.literal "s" ("://" +:+ h)) with (@None (string * string)).
    cbv iota. by rewrite Hagain. }
  destruct (Re.literal "s" r) as [[s1 r']|] eqn:Hs.
  - destruct (literal_matches _ _ _ _ Hs) as [-> Hs'].
    destruct (Re.authority r') as [a|] eqn:Ha.
    + intros [= <-].
      destruct (authority_matches _ _ Ha) as (h & rest & -> & Hh & _ & -> & Hn & Hagain).
      exists rest. repeat split; [by rewrite !append_assoc|done|].
      unfold Re.group1. by rewrite Hhttp', Hs', Hagain.
    + destruct (Re.authority (s1 +:+ r')) as [a|] eqn:Ha'; [|done].
      intros [= <-]. by apply Hwithout.
  - destruct (Re.authority r) as [a|] eqn:Ha; [|done].
    intros [= <-]. by apply Hwithout.
Qed.

End Address.

Lemma captured_origin_is_longest_head_witness :
  ∃ rest,
    "https://store.example:8443/channel.html?x=1"
    = "https://store.example:8443" +:+ rest
    ∧ (∀ c r', rest = String c r' → Re.host_char c = false)
    ∧ Re.group1 "https://store.example:8443"
      = Some "https://store.example:8443".
Proof.
  exact (captured_origin_is_longest_head
           "https://store.example:8443/channel.html?x=1"
           "https://store.example:8443" eq_refl).
Defined.

(** X3. When the address given to the constructor matches, the channel's
    origin is what the regular expression captured, and every message the
    channel posts from then on is addressed to it. *)
Theorem matched_address_is_pinned (protocol host url g : string)
    (frame : window) (inputs : list input) (p0 : page) :
  Re.group1 url = Some g →
  let p := run inputs (exec (FS.FrameStorage protocol host url frame) p0) in
  channelOrigin (chan p) = g
  ∧ Forall (addressed_to g) (since (trace p0) (trace p)).
Proof.
  intros Hre. cbn zeta.
  assert (pinned g (trace p0)
            (exec (FS.FrameStorage protocol host url frame) p0)) as Hp.
  { unfold exec. rewrite FrameStorage_result, Hre. repeat split.
    - intros c w o'. by destruct c.
    - exists []. by rewrite app_nil_r. }
  destruct (pinned_run _ _ inputs _ Hp) as (Ho & _ & added & Ht & Ha).
  split; [done|]. unfold since. by rewrite Ht, drop_app_length.
Qed.

Lemma matched_address_is_pinned_witness :
  let p := run [Invoke (Load (VStr "theme") (Some (Callable 2))); FrameLoaded;
                Invoke (Count None)]
               (exec (FS.FrameStorage "https:" "app.example"
                        "https://store.example/channel.html"
                        Sample.frame_window) Sample.blank) in
  channelOrigin (chan p) = "https://store.example"
  ∧ Forall (addressed_to "https://store.example")
           (since (trace Sample.blank) (trace p)).
Proof.
  cbn zeta.
  exact (matched_address_is_pinned "https:" "app.example"
           "https://store.example/channel.html" "https://store.example"
           Sample.frame_window
           [Invoke (Load (VStr "theme") (Some (Callable 2))); FrameLoaded;
            Invoke (Count None)]
           Sample.blank eq_refl).
Defined.

(** Messages all addressed to an origin at which the browser does not
    deliver to a window give that window no event. *)
Lemma as_events_undelivered (b : browser) (sender receiver : window)
    (o : string) (effects : list effect) :
  delivers b sender receiver o = false →
  Forall (addressed_to o) effects →
  as_events b sender receiver effects = [].
Proof.
  intros Hd. induction 1 as [|e effects He _ IH]; [done|].
  change (e :: effects) with ([e] ++ effects).
  rewrite as_events_app, IH, app_nil_r.
  destruct e as [target payload o'| | |]; try done.
  cbn in He. subst o'. cbn. by rewrite Hd, andb_false_r.
Qed.

(** X17. When the address given to the constructor does not match, and
    the browser does not deliver to the frame what is addressed to the
    page's own origin (the frame's document being of another origin), no
    request of the channel ever reaches the frame: whatever calls, loads
    and messages happen, the frame's window gets no event from the page. *)
Theorem fallback_origin_reaches_no_foreign_frame (b : browser)
    (protocol host url : string) (frame me : window) (inputs : list input)
    (p0 : page) :
  Re.group1 url = None →
  delivers b me frame (protocol +:+ "//" +:+ host) = false →
  let p := run inputs (exec (FS.FrameStorage protocol host url frame) p0) in
  as_events b me frame (since (trace p0) (trace p)) = [].
Proof.
  intros Hre Hd. cbn zeta.
  assert (pinned (protocol +:+ "//" +:+ host) (trace p0)
            (exec (FS.FrameStorage protocol host url frame) p0)) as Hp.
  { unfold exec. rewrite FrameStorage_result, Hre. repeat split.
    - intros c w o'. by destruct c.
    - exists []. by rewrite app_nil_r. }
  destruct (pinned_run _ _ inputs _ Hp) as (_ & _ & added & Ht & Ha).
  unfold since. rewrite Ht, drop_app_length.
  by apply (as_events_undelivered b me frame (protocol +:+ "//" +:+ host)).
Qed.

Lemma fallback_origin_reaches_no_foreign_frame_witness :
  let p := run [Invoke (Load (VStr "theme") (Some (Callable 2))); FrameLoaded;
                Invoke (Count None)]
               (exec (FS.FrameStorage "https:" "app.example"
                        "//store.example/channel.html"
                        Sample.frame_window) Sample.blank) in
  List.length (since (trace Sample.blank) (trace p)) = 3
  ∧ as_events Sample.browser Sample.page_window Sample.frame_window
      (since (trace Sample.blank) (trace p))
    = [].
Proof.
  cbn zeta. split; [vm_compute; reflexivity|].
  exact (fallback_origin_reaches_no_foreign_frame Sample.browser
           "https:" "app.example" "//store.example/channel.html"
           Sample.frame_window Sample.page_window
           [Invoke (Load (VStr "theme") (Some (Callable 2))); FrameLoaded;
            Invoke (Count None)]
           Sample.blank eq_refl ltac:(vm_compute; reflexivity)).
Defined.

(** ** Before and at the load *)

(** X4. Before the frame has loaded, calls of the five operations do
    nothing but grow the buffer, in the order of the calls: nothing is
    posted, nothing is logged, no handler is registered and no identifier
    is drawn. *)
Theorem calls_before_load_are_only_buffered (cs : list call) (p : page) :
  waiting (chan p) →
  let q := run (Invoke <$> cs) p in
  buffer (chan q) = buffer (chan p) ++ cs
  ∧ trace q = trace p
  ∧ callbacks q = callbacks p
  ∧ draws q = draws p
  ∧ waiting (chan q).
Proof.
  intros Hw. cbn zeta. rewrite run_invoke_waiting by done.
  repeat split; try done; apply Hw.
Qed.

Lemma calls_before_load_are_only_buffered_witness :
  let cs := [Load (VStr "theme") None;
             Save (VStr "theme") (VStr "dark") (Some (Callable 1))] in
  let q := run (Invoke <$> cs) Sample.constructed in
  buffer (chan q) = buffer (chan Sample.constructed) ++ cs
  ∧ trace q = trace Sample.constructed
  ∧ callbacks q = callbacks Sample.constructed
  ∧ draws q = draws Sample.constructed
  ∧ waiting (chan q).
Proof.
  cbn zeta.
  exact (calls_before_load_are_only_buffered
           [Load (VStr "theme") None;
            Save (VStr "theme") (VStr "dark") (Some (Callable 1))]
           Sample.constructed ltac:(vm_compute; repeat split)).
Defined.

(** X5. The frame's load handler acts once: a second load event changes
    nothing, and no load event changes a page whose frame has loaded. *)
Theorem frame_load_acts_once (p : page) :
  exec FS.iframe_onload (exec FS.iframe_onload p) = exec FS.iframe_onload p
  ∧ (onloadDone (chan p) = true → FS.iframe_onload p = (Normal tt, p)).
Proof.
  split.
  - unfold exec. rewrite !iframe_onload_total. cbn [snd].
    destruct (srcSet (chan p) && negb (onloadDone (chan p))) eqn:Hc.
    + by rewrite loaded_chan, andb_false_r.
    + by rewrite Hc.
  - intros Hd. by rewrite iframe_onload_total, Hd, andb_false_r.
Qed.

Lemma frame_load_acts_once_witness :
  FS.iframe_onload Sample.connected = (Normal tt, Sample.connected).
Proof.
  pose proof (frame_load_acts_once Sample.connected) as [_ T].
  exact (T ltac:(vm_compute; reflexivity)).
Defined.

(** ** What the channel posts *)

Section Traced.

Variable P : effect → Prop.
Hypothesis P_warn : ∀ text, P (ConsoleWarn text).
Hypothesis P_error : ∀ text, P (ConsoleError text).
Hypothesis P_call : ∀ h err val, P (CallHandler h err val).
Hypothesis P_request :
  ∀ w o ref c, P (PostMessage w (JSON_stringify (request ref c)) o).

Lemma P_warning (c : call) : Forall P (warning c).
Proof. destruct c as [? []|? ? []|[]|[]|? []]; by repeat constructor. Qed.

Lemma P_envelopes w o random n (cs : list call) :
  Forall P (envelopes w o random n cs).
Proof.
  revert n. induction cs as [|c cs IH]; intros n; cbn; [done|].
  apply Forall_app. split; [apply P_warning|]. by constructor.
Qed.

Lemma traced_move (p q : page) :
  move p q → ∃ added, trace q = trace p ++ added ∧ Forall P added.
Proof.
  intros [w o c p'|c p'|p' _ _|h err val p'|p'|ref p'].
  - eexists. split; [done|]. apply Forall_app. split; [apply P_warning|].
    by repeat constructor.
  - exists []. by rewrite app_nil_r.
  - eexists. split; [apply loaded_trace|apply P_envelopes].
  - eexists. split; [done|]. by repeat constructor.
  - eexists. split; [done|]. by repeat constructor.
  - exists []. by rewrite app_nil_r.
Qed.

Lemma traced_moves (p q : page) :
  rtc move p q → ∃ added, trace q = trace p ++ added ∧ Forall P added.
Proof.
  induction 1 as [p|p q r Hpq _ (added2 & Ht2 & Ha2)].
  - exists []. by rewrite app_nil_r.
  - destruct (traced_move _ _ Hpq) as (added1 & Ht1 & Ha1).
    exists (added1 ++ added2). rewrite Ht2, Ht1, app_assoc.
    split; [done|]. by apply Forall_app.
Qed.

Lemma traced_step (i : input) (p : page) :
  ∃ added, trace (exec (step i) p) = trace p ++ added ∧ Forall P added.
Proof.
  destruct (is_destroy i) eqn:Hi.
  - destruct i; try done. cbn [step]. unfold exec. rewrite destroy_result.
    exists []. rewrite app_nil_r. split; [|done]. by repeat case_match.
  - by apply traced_moves, step_moves.
Qed.

Lemma traced_run (inputs : list input) (p : page) :
  ∃ added, trace (run inputs p) = trace p ++ added ∧ Forall P added.
Proof.
  revert p. induction inputs as [|i inputs IH]; intros p.
  - exists []. by rewrite app_nil_r.
  - rewrite run_cons.
    destruct (traced_step i p) as (added1 & Ht1 & Ha1).
    destruct (IH (exec (step i) p)) as (added2 & Ht2 & Ha2).
    exists (added1 ++ added2). rewrite Ht2, Ht1, app_assoc.
    split; [done|]. by apply Forall_app.
Qed.

End Traced.

(** X6. Whatever is done to a page, every message its channel posts is an
    envelope whose action is one of [getItem], [setItem], [clear], [length]
    and [key]. The dispatcher has a storage operation for each of them;
    [removeItem], which it also serves, is never asked for. *)
Theorem channel_posts_requests_only (inputs : list input) (p : page) :
  Forall is_request (since (trace p) (trace (run inputs p)))
  ∧ (∀ S (B : Storage.Backend S) (m : Msg.t),
       Msg.action m ∈ client_actions →
       is_Some (perform m) ∧ Msg.action m ≠ VStr "removeItem").
Proof.
  split.
  - destruct (traced_run is_request) with (inputs := inputs) (p := p)
      as (added & Ht & Ha); try done.
    + intros w o ref c. destruct c; cbn; unfold client_actions; set_solver.
    + unfold since. by rewrite Ht, drop_app_length.
  - intros S B m Hm. unfold client_actions in Hm. unfold perform.
    repeat (apply elem_of_cons in Hm as [->|Hm]; [by eauto|]).
    by apply elem_of_nil in Hm.
Qed.

Lemma channel_posts_requests_only_witness :
  is_Some (perform (H := Sample.localStorage)
             (request "c4ab" (Key (VNum (of_nat 0)) (Some (Callable 1)))))
  ∧ Msg.action (request "c4ab" (Key (VNum (of_nat 0)) (Some (Callable 1))))
    ≠ VStr "removeItem".
Proof.
  pose proof (channel_posts_requests_only [] Sample.blank) as [_ T].
  exact (T Storage.area Sample.localStorage
           (request "c4ab" (Key (VNum (of_nat 0)) (Some (Callable 1))))
           ltac:(unfold client_actions; cbn; repeat constructor)).
Defined.

(** ** The listener of the page *)

Section Listener.

Implicit Types (p q : page) (i : input) (frame : window).

Lemma sole_move frame p q : move p q → sole frame p → sole frame q.
Proof.
  intros Hm (Hcw & Hs & Htw & Hls & Hdone).
  destruct Hm as [w o c p _|c p _|p _ Hd| | |]; try done.
  destruct (loaded_world p) as (_ & Hl & _).
  unfold sole. rewrite loaded_chan, Hl. cbn.
  destruct (targetWindow (chan p)) as [w|] eqn:Ht.
  { destruct (Hdone w eq_refl) as [_ Hd']. congruence. }
  rewrite Hls. repeat split; try done; congruence.
Qed.

Lemma sole_moves frame p q : rtc move p q → sole frame p → sole frame q.
Proof. induction 1; eauto using sole_move. Qed.

Lemma sole_destroyed frame p : sole frame p → sole frame (destroyed p).
Proof.
  intros (Hcw & Hs & Htw & Hls & Hdone). unfold sole, destroyed. cbn.
  repeat split; try done.
  rewrite <- Htw, Hls. destruct (targetWindow (chan p)); cbn; [|done].
  by rewrite decide_True.
Qed.

Lemma sole_step frame i p : sole frame p → sole frame (exec (step i) p).
Proof.
  intros Hp. destruct (is_destroy i) eqn:Hi.
  - destruct i; try done. cbn [step]. unfold exec. rewrite destroy_result.
    pose proof (sole_destroyed _ _ Hp). by repeat case_match.
  - eapply sole_moves; [by apply step_moves|done].
Qed.

Lemma sole_run frame (inputs : list input) p :
  sole frame p → sole frame (run inputs p).
Proof.
  revert p. induction inputs as [|i inputs IH]; intros p Hp; [done|].
  rewrite run_cons. by apply IH, sole_step.
Qed.

Lemma sole_constructed (protocol host url : string) frame p :
  listeners p = [] →
  sole frame (exec (FS.FrameStorage protocol host url frame) p).
Proof.
  intros Hl. unfold exec. rewrite FrameStorage_result. by repeat split.
Qed.

(** Once the load has been handled, it stays handled. *)
Lemma loaded_step i p :
  onloadDone (chan p) = true → onloadDone (chan (exec (step i) p)) = true.
Proof.
  intros Hd. destruct (is_destroy i) eqn:Hi.
  - destruct i; try done. cbn [step]. unfold exec. rewrite destroy_result.
    by repeat case_match.
  - pose proof (step_moves i p Hi) as Hm.
    induction Hm as [p|p q r Hpq _ IH]; [done|]. apply IH.
    destruct Hpq as [w o c p _|c p _|p _ _| | |]; try done.
    by rewrite loaded_chan.
Qed.

Lemma loaded_run (inputs : list input) p :
  onloadDone (chan p) = true → onloadDone (chan (run inputs p)) = true.
Proof.
  revert p. induction inputs as [|i inputs IH]; intros p Hp; [done|].
  rewrite run_cons. by apply IH, loaded_step.
Qed.

Lemma frame_loaded_run frame (inputs : list input) p :
  sole frame p → FrameLoaded ∈ inputs →
  onloadDone (chan (run inputs p)) = true.
Proof.
  intros Hp (l1 & l2 & ->)%list_elem_of_split.
  rewrite run_app, run_cons. apply loaded_run. cbn [step]. unfold exec.
  rewrite iframe_onload_total. cbn [snd].
  destruct (sole_run frame l1 p Hp) as (_ & -> & _).
  destruct (onloadDone (chan (run l1 p))) eqn:Hd; cbn [andb negb]; [done|].
  by rewrite loaded_chan.
Qed.

Lemma closed_step i p :
  closed p →
  closed (exec (step i) p)
  ∧ ∃ added, trace (exec (step i) p) = trace p ++ added
             ∧ Forall residual added.
Proof.
  intros (Hls & Htw & Hbs & Hbl & Hd).
  assert (closed p ∧ ∃ added, trace p = trace p ++ added
                              ∧ Forall residual added) as Hsame.
  { split; [done|]. exists []. by rewrite app_nil_r. }
  destruct i as [c| | |event]; cbn [step]; unfold exec.
  - destruct (bound_of c (chan p)) as [[w o]|] eqn:Hb.
    + rewrite (invoke_bound c p w o Hb). cbn [snd]. split; [done|].
      eexists. split; [done|].
      destruct c as [? ?|? ? ?|[]|[]|? ?]; cbn in Hb; try congruence;
        cbn; repeat constructor; set_solver.
    + rewrite (invoke_unbound c p Hb). cbn [snd]. split; [done|].
      exists []. by rewrite app_nil_r.
  - rewrite destroy_result.
    assert (closed (destroyed p)) as Hc.
    { unfold closed, destroyed. cbn. by rewrite Htw. }
    assert (closed (destroyed p)
            ∧ ∃ added, trace (destroyed p) = trace p ++ added
                       ∧ Forall residual added) as Hdes.
    { split; [done|]. exists []. by rewrite app_nil_r. }
    by repeat case_match.
  - by rewrite iframe_onload_total, Hd, andb_false_r.
  - unfold dispatch. by rewrite bind_get, Hls.
Qed.

Lemma closed_run (inputs : list input) p :
  closed p →
  closed (run inputs p)
  ∧ ∃ added, trace (run inputs p) = trace p ++ added
             ∧ Forall residual added.
Proof.
  revert p. induction inputs as [|i inputs IH]; intros p Hp.
  - split; [done|]. exists []. by rewrite app_nil_r.
  - rewrite run_cons.
    destruct (closed_step i p Hp) as (Hq & added1 & Ht1 & Ha1).
    destruct (IH _ Hq) as (Hr & added2 & Ht2 & Ha2).
    split; [done|]. exists (added1 ++ added2).
    rewrite Ht2, Ht1, app_assoc. split; [done|]. by apply Forall_app.
Qed.

End Listener.

(** X7. On a page that hosts this channel only, a [destroy] after the
    frame has loaded closes the channel for good. It leaves the registry as
    it was, pending handlers included; whatever calls, load events and
    messages follow, no handler is called any more and neither [getItem]
    nor [setItem] is posted: the page only logs warnings and posts [clear],
    [length] and [key] requests. *)
Theorem destroy_after_load_closes (protocol host url : string)
    (frame : window) (before later : list input) (p0 : page) :
  listeners p0 = [] →
  FrameLoaded ∈ before →
  let p := run before (exec (FS.FrameStorage protocol host url frame) p0) in
  let q := exec Handle.destroy p in
  callbacks q = callbacks p
  ∧ listeners (run later q) = []
  ∧ Forall residual (since (trace q) (trace (run later q))).
Proof.
  intros Hl Hin. cbn zeta.
  set (p := run before _).
  assert (sole frame p) as Hs by by apply sole_run, sole_constructed.
  assert (attached p) as Ha by apply attached_run, attached_constructed.
  assert (onloadDone (chan p) = true) as Hd.
  { eapply frame_loaded_run; [by apply sole_constructed|done]. }
  unfold exec at 1 2 3 4. destruct (attached_destroy p Ha) as [-> _].
  cbn [snd].
  assert (closed (destroyed p)) as Hc.
  { destruct (sole_destroyed _ _ Hs) as (_ & _ & _ & Hls & _).
    unfold closed. by rewrite Hls. }
  destruct (closed_run later _ Hc) as ((Hls & _) & added & Ht & Hres).
  repeat split; [done|]. unfold since. by rewrite Ht, drop_app_length.
Qed.

Lemma destroy_after_load_closes_witness :
  let p := run [Invoke (Load (VStr "theme") (Some (Callable 2))); FrameLoaded]
               (exec (FS.FrameStorage "https:" "app.example"
                        "https://store.example/channel.html"
                        Sample.frame_window) Sample.blank) in
  let q := exec Handle.destroy p in
  let later :=
    [Receive (Event "https://store.example" Sample.frame_window
                (Json (Sample.success "c4ab" (VStr "dark"))));
     Invoke (Load (VStr "theme") (Some (Callable 3))); Invoke (Count None)] in
  callbacks q = callbacks p
  ∧ listeners (run later q) = []
  ∧ Forall residual (since (trace q) (trace (run later q))).
Proof.
  cbn zeta.
  exact (destroy_after_load_closes "https:" "app.example"
           "https://store.example/channel.html" Sample.frame_window
           [Invoke (Load (VStr "theme") (Some (Callable 2))); FrameLoaded]
           [Receive (Event "https://store.example" Sample.frame_window
                       (Json (Sample.success "c4ab" (VStr "dark"))));
            Invoke (Load (VStr "theme") (Some (Callable 3))); Invoke (Count None)]
           Sample.blank eq_refl
           ltac:(apply list_elem_of_further, list_elem_of_here)).
Defined.

(** X8. On a page that hosts this channel only, a message event whose
    source is not the channel's frame changes nothing, whatever its data,
    malformed included: it is not parsed, nothing is logged and the
    listener does not throw. *)
Theorem foreign_message_is_ignored (protocol host url : string)
    (frame : window) (inputs : list input) (event : MessageEvent)
    (p0 : page) :
  listeners p0 = [] →
  source event ≠ frame →
  let p := run inputs (exec (FS.FrameStorage protocol host url frame) p0) in
  dispatch event p = (Normal tt, p)
  ∧ ∀ w, w ∈ listeners p →
         FS.handleMessageEvent w event p = (Normal tt, p).
Proof.
  intros Hl Hsrc. cbn zeta. set (p := run inputs _).
  assert (sole frame p) as (_ & _ & _ & Hls & Hw)
    by by apply sole_run, sole_constructed.
  assert (∀ w, w ∈ listeners p →
               FS.handleMessageEvent w event p = (Normal tt, p)) as Hh.
  { intros w. rewrite Hls.
    destruct (targetWindow (chan p)) as [w'|]; cbn; [|by intros ?%elem_of_nil].
    intros ->%list_elem_of_singleton. destruct (Hw w' eq_refl) as [-> _].
    by apply handle_other_source. }
  split; [|done]. unfold dispatch. rewrite bind_get.
  revert Hh. generalize (listeners p). intros ls Hh.
  induction ls as [|w ls IH]; [done|]. cbn [forEach].
  unfold bind, reported, try_catch.
  rewrite Hh by by left. apply IH. intros w' Hw'. apply Hh. by right.
Qed.

Lemma foreign_message_is_ignored_witness :
  let p := run [FrameLoaded]
               (exec (FS.FrameStorage "https:" "app.example"
                        "https://store.example/channel.html"
                        Sample.frame_window) Sample.blank) in
  dispatch (Event "https://other.example" Sample.page_window (Garbage "{")) p
  = (Normal tt, p).
Proof.
  cbn zeta.
  pose proof
    (foreign_message_is_ignored "https:" "app.example"
       "https://store.example/channel.html" Sample.frame_window
       [FrameLoaded]
       (Event "https://other.example" Sample.page_window (Garbage "{"))
       Sample.blank eq_refl ltac:(vm_compute; discriminate)) as T.
  cbv zeta in T. destruct T as [T _]. exact T.
Defined.

(** ** What the dispatcher does on any event *)

Section Dispatch.

Context {S : Type} `{!Storage.Backend S}.

Implicit Types (m : Msg.t) (f : Server.frame S) (event : MessageEvent).

Lemma process_unknown (expected : string) event m f :
  data event = Json m →
  perform m = None →
  Server.process expected event f
  = (Normal tt,
     Server.Frame (Server.storage f)
       (Server.output f ++ [ConsoleError "Unknown action"])).
Proof.
  intros Hdata Hop. unfold Server.process, perform in *.
  rewrite Hdata. cbn [JSON_parse]. rewrite bind_ret.
  by repeat case_match.
Qed.

(** X9. A message the dispatcher accepts whose action is none of the six
    it serves (an absent action included, as in any JSON value that is not
    an envelope) is logged as "Unknown action": the storage is not touched,
    nothing is posted and the listener returns. *)
Theorem unknown_action_is_logged (clientOrigin : option string) event m f :
  data event = Json m →
  Server.mismatch (default "*" clientOrigin) (origin event) = false →
  perform m = None →
  Server.initChannel clientOrigin event f
  = (Normal tt,
     Server.Frame (Server.storage f)
       (Server.output f ++ [ConsoleError "Unknown action"])).
Proof.
  intros Hdata Horigin Hop. unfold Server.initChannel.
  rewrite listener_accepts by done. by apply (process_unknown _ _ m).
Qed.

(** X10. Whatever the event, the dispatcher adds at most one effect to
    its output, and it is either an error it logs or a message posted to
    the sender of the event and addressed to the origin the dispatcher
    expects ([*] when none was given): it never posts to another window,
    never to another origin, and never twice. *)
Theorem dispatcher_answers_the_sender_once (clientOrigin : option string)
    event f :
  ∃ added,
    Server.output (exec (Server.initChannel clientOrigin event) f)
    = Server.output f ++ added
    ∧ (List.length added ≤ 1)%nat
    ∧ Forall (answers event (default "*" clientOrigin)) added.
Proof.
  unfold exec, Server.initChannel.
  destruct (Server.mismatch (default "*" clientOrigin) (origin event))
    eqn:Horigin.
  { rewrite listener_discards by done.
    exists [ConsoleError "Origin mismatch"].
    split; [done|]. split; [cbn; lia|]. by repeat constructor. }
  rewrite listener_accepts by done.
  destruct (data event) as [text| |m] eqn:Hdata.
  - exists []. unfold Server.process. rewrite Hdata, app_nil_r.
    split; [done|]. split; [cbn; lia|done].
  - exists []. unfold Server.process. rewrite Hdata, app_nil_r.
    split; [done|]. split; [cbn; lia|done].
  - destruct (perform m) as [op|] eqn:Hop.
    + rewrite (process_performs _ _ m op) by done.
      eexists [_]. split; [done|]. split; [cbn; lia|].
      by repeat constructor.
    + rewrite (process_unknown _ _ m) by done.
      exists [ConsoleError "Unknown action"].
      split; [done|]. split; [cbn; lia|]. by repeat constructor.
Qed.

(** ** A call and its answer *)

Implicit Types (b : browser) (c : call) (p : page).


(** X12. On a ready channel, a call without a handler is still posted
    (after a warning for [getItem], [clear] and [length], without one for
    [setItem] and [key]) and registers nothing; when the answer comes back
    under a reference that is not pending, the listener drops it: the page
    is left exactly as the call left it. *)
Theorem unhandled_call_is_forgotten b c (clientOrigin : option string)
    (me : window) p f :
  serving p →
  handler_of c = None →
  let w := contentWindow (chan p) in
  let o := channelOrigin (chan p) in
  let r := FS.guid (Math_random p (draws p)) in
  delivers b me w o = true →
  Server.mismatch (default "*" clientOrigin) (document_origin b me) = false →
  delivers b w me (default "*" clientOrigin) = true →
  callbacks p !! r = None →
  let p1 := exec (Handle.invoke c) p in
  let requests := as_events b me w (since (trace p) (trace p1)) in
  let f1 := exec (forEach requests (Server.initChannel clientOrigin)) f in
  let responses :=
    as_events b w me (since (Server.output f) (Server.output f1)) in
  let p2 := exec (forEach responses (FS.handleMessageEvent w)) p1 in
  since (trace p) (trace p1)
  = warning c ++ [PostMessage w (JSON_stringify (request r c)) o]
  ∧ callbacks p1 = callbacks p
  ∧ List.length responses = 1
  ∧ forEach responses (FS.handleMessageEvent w) p1 = (Normal tt, p1)
  ∧ p2 = p1.
Proof.
  intros Hs Hh. cbn zeta. intros Hto Horigin Hfrom.
  set (r := FS.guid (Math_random p (draws p))). intros Hfresh.
  destruct (request_is_served c r) as [op Hop].
  destruct (call_is_answered b c clientOrigin me p f op Hs Hto Horigin Hop)
    as [-> ->].
  cbn [Server.output]. rewrite !since_app, as_events_posted by done.
  split; [apply (since_app (trace p))|].
  split; [by unfold sent; rewrite Hh|]. split; [done|].
  assert (forEach
            [Event (document_origin b (contentWindow (chan p)))
               (contentWindow (chan p))
               (JSON_stringify
                  (reply (read_back (request r c)) (op (Server.storage f)).1))]
            (FS.handleMessageEvent (contentWindow (chan p)))
            (sent (contentWindow (chan p)) (channelOrigin (chan p)) c p)
          = (Normal tt,
             sent (contentWindow (chan p)) (channelOrigin (chan p)) c p))
    as Hdrop.
  { cbn [forEach]. unfold bind, JSON_stringify.
    rewrite (handle_unregistered_guid _ _ (Math_random p (draws p)));
      [done| | |].
    - by destruct c, (op (Server.storage f)).1.
    - destruct (op (Server.storage f)).1; [by left|by right].
    - unfold sent. cbn [callbacks]. by rewrite Hh. }
  split; [exact Hdrop|]. exact (f_equal snd Hdrop).
Qed.

End Dispatch.

Lemma unknown_action_is_logged_witness :
  Server.initChannel (H := Sample.localStorage) None
    (Event "https://app.example" Sample.page_window
       (Json (Msg.mk VUndef VUndef VUndef VUndef VUndef)))
    Sample.frame
  = (Normal tt,
     Server.Frame (Server.storage Sample.frame)
       (Server.output Sample.frame ++ [ConsoleError "Unknown action"])).
Proof.
  exact (unknown_action_is_logged (H := Sample.localStorage) None
           (Event "https://app.example" Sample.page_window
              (Json (Msg.mk VUndef VUndef VUndef VUndef VUndef)))
           (Msg.mk VUndef VUndef VUndef VUndef VUndef)
           Sample.frame eq_refl eq_refl eq_refl).
Defined.


Lemma unhandled_call_is_forgotten_witness :
  let p := Sample.connected in
  let c := Save (VStr "theme") (VStr "dark") None in
  let w := contentWindow (chan p) in
  let o := channelOrigin (chan p) in
  let r := FS.guid (Math_random p (draws p)) in
  let p1 := exec (Handle.invoke c) p in
  let requests :=
    as_events Sample.browser Sample.page_window w
      (since (trace p) (trace p1)) in
  let f1 :=
    exec (forEach requests
            (Server.initChannel (H := Sample.localStorage) None))
         Sample.frame in
  let responses :=
    as_events Sample.browser w Sample.page_window
      (since (Server.output Sample.frame) (Server.output f1)) in
  let p2 := exec (forEach responses (FS.handleMessageEvent w)) p1 in
  since (trace p) (trace p1)
  = warning c ++ [PostMessage w (JSON_stringify (request r c)) o]
  ∧ callbacks p1 = callbacks p
  ∧ List.length responses = 1
  ∧ forEach responses (FS.handleMessageEvent w) p1 = (Normal tt, p1)
  ∧ p2 = p1.
Proof.
  cbn zeta.
  exact (unhandled_call_is_forgotten (H := Sample.localStorage)
           Sample.browser (Save (VStr "theme") (VStr "dark") None) None
           Sample.page_window Sample.connected Sample.frame
           ltac:(vm_compute; repeat split) eq_refl
           ltac:(vm_compute; reflexivity) eq_refl
           ltac:(vm_compute; reflexivity)
           ltac:(vm_compute; reflexivity)).
Defined.

(** ** When the answer cannot come *)

Section Pending.

Implicit Types (p : page) (c : call) (i : input).

Lemma idle_step i p :
  i ≠ FrameLoaded →
  waiting (chan p) → targetWindow (chan p) = None → listeners p = [] →
  let q := exec (step i) p in
  waiting (chan q) ∧ targetWindow (chan q) = None ∧ listeners q = []
  ∧ trace q = trace p ∧ callbacks q = callbacks p ∧ draws q = draws p
  ∧ buffer (chan q) = buffer (chan p) ++ invoked [i].
Proof.
  intros Hi Hw Htw Hls. cbn zeta.
  assert (let q := p in
          waiting (chan q) ∧ targetWindow (chan q) = None ∧ listeners q = []
          ∧ trace q = trace p ∧ callbacks q = callbacks p
          ∧ draws q = draws p ∧ buffer (chan q) = buffer (chan p) ++ [])
    as Hsame by (by rewrite app_nil_r).
  destruct i as [c| | |event]; cbn [step]; unfold exec; try done.
  - rewrite invoke_unbound by by apply waiting_unbound.
    cbn [snd]. split; [by apply (waiting_with_buffer _ p)|done].
  - rewrite destroy_result.
    assert (let q := destroyed p in
            waiting (chan q) ∧ targetWindow (chan q) = None
            ∧ listeners q = [] ∧ trace q = trace p
            ∧ callbacks q = callbacks p ∧ draws q = draws p
            ∧ buffer (chan q) = buffer (chan p) ++ []) as Hdes.
    { cbn zeta. unfold destroyed. cbn. rewrite Htw, app_nil_r.
      destruct Hw as (?&?&?&?&?&?&?). by repeat split. }
    by repeat case_match.
  - unfold dispatch. by rewrite bind_get, Hls.
Qed.

Lemma idle_run (inputs : list input) p :
  FrameLoaded ∉ inputs →
  waiting (chan p) → targetWindow (chan p) = None → listeners p = [] →
  let q := run inputs p in
  waiting (chan q) ∧ listeners q = []
  ∧ trace q = trace p ∧ callbacks q = callbacks p ∧ draws q = draws p
  ∧ buffer (chan q) = buffer (chan p) ++ invoked inputs.
Proof.
  revert p. induction inputs as [|i inputs IH]; intros p Hin Hw Htw Hls.
  - cbn. by rewrite app_nil_r.
  - apply not_elem_of_cons in Hin as [Hi Hin]. cbn zeta. rewrite run_cons.
    destruct (idle_step i p) as (Hw' & Htw' & Hls' & Ht & Hc & Hd & Hb);
      [done..|].
    destruct (IH _ Hin Hw' Htw' Hls') as (? & ? & Ht2 & Hc2 & Hd2 & Hb2).
    rewrite Ht2, Hc2, Hd2, Hb2, Ht, Hc, Hd, Hb, <- app_assoc.
    do 5 (split; [done|]).
    f_equal. unfold invoked. destruct i; reflexivity.
Qed.

End Pending.

(** X13. As long as the frame has not loaded, a channel constructed on a
    page without other message listeners posts nothing, logs nothing,
    listens to nothing and registers no handler, whatever calls, [destroy]
    and messages happen: the calls pile up in the buffer in the order they
    were made ([destroy] does not empty it), and their handlers are not
    called. *)
Theorem nothing_happens_before_load (protocol host url : string)
    (frame : window) (inputs : list input) (p0 : page) :
  listeners p0 = [] →
  FrameLoaded ∉ inputs →
  let made := exec (FS.FrameStorage protocol host url frame) p0 in
  let p := run inputs made in
  trace p = trace p0
  ∧ listeners p = []
  ∧ callbacks p = callbacks made
  ∧ buffer (chan p) = invoked inputs.
Proof.
  intros Hls Hin. cbn zeta.
  destruct (idle_run inputs
              (exec (FS.FrameStorage protocol host url frame) p0) Hin)
    as (_ & -> & -> & -> & _ & ->);
    unfold exec; rewrite FrameStorage_result; done.
Qed.

Lemma nothing_happens_before_load_witness :
  let inputs :=
    [Invoke (Load (VStr "theme") (Some (Callable 2))); Destroy;
     Receive (Event "https://store.example" Sample.frame_window
                (Json (Sample.success "c3ab" VNull)));
     Invoke (Count None)] in
  let made := exec (FS.FrameStorage "https:" "app.example"
                      "https://store.example/channel.html"
                      Sample.frame_window) Sample.blank in
  let p := run inputs made in
  trace p = trace Sample.blank
  ∧ listeners p = []
  ∧ callbacks p = callbacks made
  ∧ buffer (chan p) = invoked inputs.
Proof.
  cbn zeta.
  exact (nothing_happens_before_load "https:" "app.example"
           "https://store.example/channel.html" Sample.frame_window
           [Invoke (Load (VStr "theme") (Some (Callable 2))); Destroy;
            Receive (Event "https://store.example" Sample.frame_window
                       (Json (Sample.success "c3ab" VNull)));
            Invoke (Count None)]
           Sample.blank eq_refl
           ltac:(vm_compute; intros Hin;
                 repeat (apply elem_of_cons in Hin as [Hin|Hin];
                         [discriminate|]);
                 by apply elem_of_nil in Hin)).
Defined.

Section Rejected.

Context {S : Type} `{!Storage.Backend S}.

(** X14. When the dispatcher does not accept the page's origin, a call
    made on a ready channel, and delivered to the frame, is never answered:
    the dispatcher only logs the mismatch and leaves the storage alone, the
    handler is not called and stays registered under the reference of the
    request. *)
Theorem rejected_call_stays_pending (b : browser) (c : call) (h : handler)
    (clientOrigin : option string) (me : window) (p : page)
    (f : Server.frame S) :
  serving p →
  handler_of c = Some h →
  let w := contentWindow (chan p) in
  let o := channelOrigin (chan p) in
  let r := FS.guid (Math_random p (draws p)) in
  delivers b me w o = true →
  Server.mismatch (default "*" clientOrigin) (document_origin b me) = true →
  let p1 := exec (Handle.invoke c) p in
  let requests := as_events b me w (since (trace p) (trace p1)) in
  let f1 := exec (forEach requests (Server.initChannel clientOrigin)) f in
  let responses :=
    as_events b w me (since (Server.output f) (Server.output f1)) in
  let p2 := exec (forEach responses (FS.handleMessageEvent w)) p1 in
  List.length requests = 1
  ∧ f1 = Server.Frame (Server.storage f)
           (Server.output f ++ [ConsoleError "Origin mismatch"])
  ∧ responses = []
  ∧ p2 = p1
  ∧ callbacks p1 !! r = Some (Completion h).
Proof.
  intros [Hr _] Hh. cbn zeta. intros Hto Horigin.
  set (w := contentWindow (chan p)) in *.
  set (o := channelOrigin (chan p)) in *.
  set (r := FS.guid (Math_random p (draws p))).
  assert (exec (Handle.invoke c) p = sent w o c p) as ->.
  { unfold exec. by rewrite (invoke_bound c p w o) by by apply ready_bound. }
  assert (since (trace p) (trace (sent w o c p))
          = warning c ++ [PostMessage w (JSON_stringify (request r c)) o])
    as -> by apply since_app.
  rewrite as_events_request by done. rewrite exec_one.
  assert (exec (Server.initChannel clientOrigin
                  (Event (document_origin b me) me
                     (JSON_stringify (request r c)))) f
          = Server.Frame (Server.storage f)
              (Server.output f ++ [ConsoleError "Origin mismatch"])) as ->.
  { unfold exec, Server.initChannel. by rewrite listener_discards. }
  cbn [Server.output]. rewrite since_app.
  cbn [as_events mbind list_bind app].
  do 4 (split; [done|]).
  unfold sent. cbn [callbacks]. rewrite Hh. apply lookup_insert_eq.
Qed.

End Rejected.

Lemma rejected_call_stays_pending_witness :
  let p := Sample.connected in
  let c := Load (VStr "theme") (Some (Callable 2)) in
  let w := contentWindow (chan p) in
  let r := FS.guid (Math_random p (draws p)) in
  let p1 := exec (Handle.invoke c) p in
  let requests :=
    as_events Sample.browser Sample.page_window w
      (since (trace p) (trace p1)) in
  let f1 :=
    exec (forEach requests
            (Server.initChannel (H := Sample.localStorage)
               (Some "https://trusted.example")))
         Sample.frame in
  let responses :=
    as_events Sample.browser w Sample.page_window
      (since (Server.output Sample.frame) (Server.output f1)) in
  let p2 := exec (forEach responses (FS.handleMessageEvent w)) p1 in
  List.length requests = 1
  ∧ f1 = Server.Frame (Server.storage Sample.frame)
           (Server.output Sample.frame ++ [ConsoleError "Origin mismatch"])
  ∧ responses = []
  ∧ p2 = p1
  ∧ callbacks p1 !! r = Some (Completion (Callable 2)).
Proof.
  cbn zeta.
  exact (rejected_call_stays_pending (H := Sample.localStorage)
           Sample.browser (Load (VStr "theme") (Some (Callable 2)))
           (Callable 2) (Some "https://trusted.example") Sample.page_window
           Sample.connected Sample.frame
           ltac:(vm_compute; repeat split) eq_refl
           ltac:(vm_compute; reflexivity) eq_refl).
Defined.

(** X15. When [makeGuid] draws a reference that is still pending, what the
    new call gave as handler takes the place of the pending one: the next
    success response under that reference, whichever request it answers,
    calls the new handler and not the earlier one. The entry is removed
    when the new handler returns; when it throws, or is not a function, the
    exception leaves the listener and the entry stays. *)
Theorem colliding_reference_replaces_handler (c : call)
    (h earlier : handler) (there : string) (k v : jsval) (p : page) :
  serving p →
  handler_of c = Some h →
  let w := contentWindow (chan p) in
  let r := FS.guid (Math_random p (draws p)) in
  callbacks p !! r = Some (Completion earlier) →
  let p1 := exec (Handle.invoke c) p in
  let answer := Msg.mk (VStr "frameStorageSuccess") (VStr r) k v VUndef in
  let listened := FS.handleMessageEvent w (Event there w (Json answer)) p1 in
  callbacks p1 !! r = Some (Completion h)
  ∧ listened = resolved r h VNull v p1
  ∧ trace listened.2
    = trace p1 ++ match h with
                  | Callable g => [CallHandler g VNull v]
                  | Uncallable => []
                  end
  ∧ (∀ g, h = Callable g → client p1 g VNull v (trace p1) = None →
       listened
       = (Normal tt,
          with_callbacks (delete r)
            (with_trace (λ t, t ++ [CallHandler g VNull v]) p1)))
  ∧ (listened.1 ≠ Normal tt →
     callbacks listened.2 !! r = Some (Completion h)).
Proof.
  intros [Hr _] Hh. cbn zeta. intros _.
  set (w := contentWindow (chan p)). set (o := channelOrigin (chan p)).
  set (r := FS.guid (Math_random p (draws p))).
  assert (exec (Handle.invoke c) p = sent w o c p) as ->.
  { unfold exec. by rewrite (invoke_bound c p w o) by by apply ready_bound. }
  assert (callbacks (sent w o c p) !! r = Some (Completion h)) as Hreg.
  { unfold sent. cbn [callbacks]. rewrite Hh. apply lookup_insert_eq. }
  split; [done|].
  rewrite (handle_resolves w there
             (Msg.mk (VStr "frameStorageSuccess") (VStr r) k v VUndef)
             h VNull v) by (done || by left).
  split; [done|]. unfold resolved.
  destruct h as [g|].
  - destruct (client (sent w o c p) g VNull v (trace (sent w o c p)))
      as [e|] eqn:Hclient.
    + split; [done|]. split; [by intros ? [= <-]; rewrite Hclient|done].
    + split; [done|]. split; [by intros ? [= <-]|done].
  - split; [by rewrite app_nil_r|]. split; [done|done].
Qed.

Lemma colliding_reference_replaces_handler_witness :
  let p :=
    with_callbacks (insert "c4ab" (Completion (Callable 9)))
                   Sample.connected in
  let c := Load (VStr "theme") (Some (Callable 2)) in
  let w := contentWindow (chan p) in
  let r := FS.guid (Math_random p (draws p)) in
  let p1 := exec (Handle.invoke c) p in
  let answer :=
    Msg.mk (VStr "frameStorageSuccess") (VStr r) (VStr "older") VNull VUndef in
  callbacks p1 !! r = Some (Completion (Callable 2))
  ∧ FS.handleMessageEvent w (Event "https://store.example" w (Json answer)) p1
    = (Normal tt,
       with_callbacks (delete r)
         (with_trace (λ t, t ++ [CallHandler 2 VNull VNull]) p1)).
Proof.
  cbn zeta.
  destruct (colliding_reference_replaces_handler
              (Load (VStr "theme") (Some (Callable 2))) (Callable 2)
              (Callable 9) "https://store.example" (VStr "older") VNull
              (with_callbacks (insert "c4ab" (Completion (Callable 9)))
                              Sample.connected)
              ltac:(vm_compute; repeat split) eq_refl
              ltac:(vm_compute; reflexivity))
    as (T1 & _ & _ & T2 & _).
  split; [exact T1|]. exact (T2 2 eq_refl eq_refl).
Defined.

(** ** What [destroy] does, and does again *)

Lemma remove_first_elem {A} `{EqDecision A} (x : A) (l : list A) :
  x ∈ l →
  ∃ before after,
    l = before ++ x :: after ∧ (x ∉ before)
    ∧ remove_first x l = before ++ after.
Proof.
  induction l as [|y l IH]; [by intros ?%elem_of_nil|].
  intros Hin. cbn [remove_first].
  destruct (decide (x = y)) as [<-|Hne].
  - exists [], l. split; [done|]. split; [apply not_elem_of_nil|done].
  - apply elem_of_cons in Hin as [?|Hin]; [done|].
    destruct (IH Hin) as (before & after & -> & Hnot & ->).
    exists (y :: before), after. split; [done|]. split; [|done].
    by apply not_elem_of_cons.
Qed.

(** X16. However the channel has been used since its construction, calls
    of [destroy] included, [destroy] returns without throwing; it leaves
    the channel without root, without frame window and without listener,
    having taken from the window's listeners the one the load had attached
    (its first occurrence, the others staying in their order), so that on
    a page that had no other listener none is left; and a second [destroy]
    returns as well and changes nothing. *)
Theorem destroy_is_idempotent (protocol host url : string) (frame : window)
    (inputs : list input) (p0 : page) :
  let p := run inputs (exec (FS.FrameStorage protocol host url frame) p0) in
  Handle.destroy p = (Normal tt, destroyed p)
  ∧ Handle.destroy (destroyed p) = (Normal tt, destroyed p)
  ∧ root (chan (destroyed p)) = None
  ∧ targetWindow (chan (destroyed p)) = None
  ∧ boundMessageEventHandler (chan (destroyed p)) = None
  ∧ (∀ w, targetWindow (chan p) = Some w →
       ∃ before after,
         listeners p = before ++ w :: after ∧ (w ∉ before)
         ∧ listeners (destroyed p) = before ++ after)
  ∧ (targetWindow (chan p) = None → listeners (destroyed p) = listeners p)
  ∧ (listeners p0 = [] → listeners (destroyed p) = []).
Proof.
  cbn zeta.
  set (p := run inputs _).
  assert (attached p) as Ha by apply attached_run, attached_constructed.
  destruct (attached_destroy p Ha) as [Hd Ha'].
  destruct (attached_destroy _ Ha') as [Hd' _].
  do 5 (split; [done|]).
  destruct Ha as (_ & Htw & Hin).
  split; [|split].
  - intros w Hw.
    destruct (remove_first_elem w (listeners p) (Hin w Hw))
      as (before & after & Hl & Hnot & Hrem).
    exists before, after. split; [done|]. split; [done|].
    unfold destroyed. cbn [listeners]. by rewrite <- Htw, Hw.
  - intros Hw. unfold destroyed. cbn [listeners]. by rewrite Hw.
  - intros Hl.
    assert (sole frame p) as Hs by by apply sole_run, sole_constructed.
    by destruct (sole_destroyed _ _ Hs) as (_ & _ & _ & -> & _).
Qed.

Lemma destroy_is_idempotent_witness :
  let p := run [FrameLoaded; Invoke (Count None)]
               (exec (FS.FrameStorage "https:" "app.example"
                        "https://store.example/channel.html"
                        Sample.frame_window) Sample.blank) in
  Handle.destroy p = (Normal tt, destroyed p)
  ∧ Handle.destroy (destroyed p) = (Normal tt, destroyed p)
  ∧ listeners p = [Sample.frame_window]
  ∧ listeners (destroyed p) = [].
Proof.
  cbn zeta.
  pose proof
    (destroy_is_idempotent "https:" "app.example"
       "https://store.example/channel.html" Sample.frame_window
       [FrameLoaded; Invoke (Count None)] Sample.blank) as T.
  cbv zeta in T. destruct T as (T1 & T2 & _ & _ & _ & _ & _ & T3).
  split; [exact T1|]. split; [exact T2|].
  split; [vm_compute; reflexivity|exact (T3 eq_refl)].
Defined.
